(** * docu-count: the email statistics endpoint of [src/email-counter.ts]

    The program is one asynchronous function, [countEmails], that opens a
    MongoDB client, runs one probe and five read queries against a
    collection and returns the five numbers as an [EmailCounts] record, and
    one Express route, [POST /api/count-emails], that validates the request
    body, calls [countEmails] and turns the outcome into a JSON response.

    The development has three layers:
    - [Bson], [Query]: documents and the part of the MongoDB query language
      the program uses (filters, [distinct], the aggregation stages
      [$match] and [$group]);
    - [JS], [Eff]: JavaScript values, thrown values, and a state-and-
      exception monad over a [world] that holds the environment, the
      database contents, an oracle for driver failures and the log of the
      driver calls made;
    - [countEmails] and [post_count_emails] themselves, then the theorems. *)

From stdpp Require Import gmap strings list.
From Stdlib Require Import ZArith.

Open Scope string_scope.

(** ** Documents *)

Module Bson.

(** The values a field can hold: [null], a string, a number, or an array
    of values.  The program can be pointed at any collection, and nothing
    makes [email] a string there.  The values of the other BSON types
    (booleans, dates, embedded documents) are compared as wholes by every
    operation the program uses, as numbers are.  A field that is absent
    from a document is the absence of a key in the map, not a value. *)
#[warnings="-register-all"] Inductive value : Type :=
| Null
| Str (s : string)
| Int (z : Z)
| Arr (elements : list value).

#[global] Instance value_eq_dec : EqDecision value.
Proof.
  refine (fix go (x y : value) {struct x} : Decision (x = y) :=
            match x, y with
            | Null, Null => left _
            | Str s, Str s' => cast_if (decide (s = s'))
            | Int z, Int z' => cast_if (decide (z = z'))
            | Arr xs, Arr ys => cast_if (@list_eq_dec _ go xs ys)
            | _, _ => right _
            end);
    clear go; first [congruence | by intros [=]].
Defined.

Abbreviation document := (gmap string value).

End Bson.

(** ** The query language, as far as the program uses it *)

Module Query.
Import Bson.

(** Conditions on one field.
    - [Eq v]      is [{ field: v }]
    - [Ne v]      is [{ field: { $ne: v } }]
    - [Exists b]  is [{ field: { $exists: b } }]
    - [Gt n]      is [{ field: { $gt: n } }] *)
Inductive cond : Type :=
| Eq (v : value)
| Ne (v : value)
| Exists (b : bool)
| Gt (n : Z).

(** Filters. [All] is the empty filter [{}]. *)
#[warnings="-register-all"] Inductive filter : Type :=
| All
| Field (name : string) (c : cond)
| Or (alternatives : list filter).

(** Equality match.  Matching against [null] also selects the documents
    that do not have the field at all; a field that holds an array matches
    when the array is the operand or one of its elements is. *)
Definition eq_match (v : value) (field : option value) : bool :=
  match field with
  | None => bool_decide (v = Null)
  | Some (Arr elements) =>
      bool_decide (Arr elements = v) || bool_decide (v ∈ elements)
  | Some x => bool_decide (x = v)
  end.

(** [$gt] against a number, on one value. *)
Definition above (n : Z) (x : value) : bool :=
  match x with
  | Int m => (n <? m)%Z
  | _ => false
  end.

Definition holds (c : cond) (field : option value) : bool :=
  match c with
  | Eq v => eq_match v field
  | Ne v => negb (eq_match v field)
  | Exists b => Bool.eqb (bool_decide (is_Some field)) b
  | Gt n =>
      match field with
      | Some (Arr elements) => existsb (above n) elements
      | Some x => above n x
      | None => false
      end
  end.

Fixpoint matches (q : filter) (d : document) : bool :=
  match q with
  | All => true
  | Field name c => holds c (d !! name)
  | Or alternatives => existsb (fun q' => matches q' d) alternatives
  end.

(** The values [distinct] takes from one field: nothing when the field
    is absent, every element when it holds an array, the value itself
    otherwise. *)
Definition values_of (field : option value) : list value :=
  match field with
  | None => []
  | Some (Arr elements) => elements
  | Some x => [x]
  end.

(** [collection.findOne(q)], [collection.countDocuments(q)] and
    [collection.distinct(key, q)]. *)
Definition findOne (q : filter) (docs : list document) : option document :=
  head (List.filter (matches q) docs).

Definition countDocuments (q : filter) (docs : list document) : nat :=
  length (List.filter (matches q) docs).

Definition distinct (key : string) (q : filter) (docs : list document)
  : list value :=
  remove_dups
    (List.filter (matches q) docs ≫= fun d : document => values_of (d !! key)).

(** Aggregation stages.  [GroupCount path] is
    [{ $group: { _id: '$path', count: { $sum: 1 } } }]. *)
Inductive stage : Type :=
| Match (q : filter)
| GroupCount (path : string).

(** The grouping key of a document: the value at [path], an array as one
    value, and [null] when the document has no such field. *)
Definition group_key (path : string) (d : document) : value :=
  default Null (d !! path).

Definition occurrences (k : value) (keys : list value) : nat :=
  length (List.filter (fun k' => bool_decide (k' = k)) keys).

Definition group_doc (k : value) (n : nat) : document :=
  {[ "_id" := k; "count" := Int (Z.of_nat n) ]}.

(** One output document per distinct key, carrying the size of its group. *)
Definition group_count (path : string) (docs : list document)
  : list document :=
  let keys := group_key path <$> docs in
  (fun k => group_doc k (occurrences k keys)) <$> remove_dups keys.

Definition run_stage (s : stage) (docs : list document) : list document :=
  match s with
  | Match q => List.filter (matches q) docs
  | GroupCount path => group_count path docs
  end.

Definition aggregate (pipeline : list stage) (docs : list document)
  : list document :=
  foldl (fun acc s => run_stage s acc) docs pipeline.

End Query.

(** ** JavaScript values and thrown values *)

Module JS.

(** What a field of a parsed JSON body can be, plus [undefined] for a
    field that is not there.  [Object] stands for any object or array:
    the program only ever tests such a value for truthiness. *)
Inductive value : Type :=
| Undefined
| Null
| Bool (b : bool)
| Num (z : Z)
| Str (s : string)
| Object.

#[global] Instance value_eq_dec : EqDecision value.
Proof. solve_decision. Defined.

(** [!!v] *)
Definition truthy (v : value) : bool :=
  match v with
  | Undefined | Null => false
  | Bool b => b
  | Num z => negb (z =? 0)%Z
  | Str s => negb (bool_decide (s = ""))
  | Object => true
  end.

(** Anything can be thrown; [Error message] is a value for which
    [instanceof Error] holds. *)
Inductive thrown : Type :=
| Error (message : string)
| NotAnError (v : value).

(** [body.name] on a parsed body. *)
Definition get (body : gmap string value) (name : string) : value :=
  default Undefined (body !! name).

End JS.

(** ** Effects *)

Module Eff.
Import Bson Query.

(** [ReadPreference.SECONDARY_PREFERRED], the one preference the program
    names. *)
Inductive read_preference : Type :=
| SECONDARY_PREFERRED.

(** The options object given to [new MongoClient]. *)
Record client_options : Type := {
  readPreference : read_preference;
  readConcern_level : string;
  retryReads : bool;
  maxPoolSize : nat
}.

(** The calls the program makes into the MongoDB driver, with the
    arguments it passes.  The options choose where a read is served from;
    they have no part in what a query means. *)
Inductive call : Type :=
| NewClient (uri : string) (options : client_options)
| Connect
| Db (name : JS.value)
| Collection (name : JS.value)
| FindOne (q : filter) (projection : list string)
| CountDocuments (q : filter) (options : option read_preference)
| Distinct (key : string) (q : filter) (options : option read_preference)
| Aggregate (pipeline : list stage)
| Close.

(** The world a request runs in.
    - [env] is [process.env];
    - [contents db coll] is what the collection holds.  The names are
      run-time values: the annotation [string] of [countEmails] is erased,
      and the route passes on whatever truthy value the body carried.
      Nothing writes to a collection while a call runs: the probe and the
      five queries of one call read these same documents, and every
      statement about the numbers is about a call on this given
      collection;
    - [failure n] says whether the [n]-th driver call of this process
      throws, and what; a driver call can fail at any time;
    - [calls] logs every driver call made, oldest first, with what it
      threw if it threw;
    - [stderr] is what [console.error] printed. *)
Record world : Type := World {
  env : gmap string string;
  contents : JS.value → JS.value → list document;
  failure : nat → option JS.thrown;
  calls : list (call * option JS.thrown);
  stderr : list JS.thrown
}.

Inductive outcome (A : Type) : Type :=
| Returned (a : A)
| Threw (e : JS.thrown).
Arguments Returned {A} a.
Arguments Threw {A} e.

Definition M (A : Type) : Type := world → outcome A * world.

Definition ret {A} (a : A) : M A := fun w => (Returned a, w).

Definition bind {A B} (m : M A) (k : A → M B) : M B := fun w =>
  match m w with
  | (Returned a, w') => k a w'
  | (Threw e, w') => (Threw e, w')
  end.

Definition throw {A} (e : JS.thrown) : M A := fun w => (Threw e, w).

(** [try { body } finally { cleanup }]: the cleanup runs however the body
    ends; if the cleanup itself throws, that is what the statement
    throws. *)
Definition try_finally {A} (body : M A) (cleanup : M unit) : M A := fun w =>
  let (r, w1) := body w in
  match cleanup w1 with
  | (Returned _, w2) => (r, w2)
  | (Threw e, w2) => (Threw e, w2)
  end.

(** [try { body } catch (error) { handler }] *)
Definition try_catch {A} (body : M A) (handler : JS.thrown → M A) : M A :=
  fun w =>
    match body w with
    | (Returned a, w') => (Returned a, w')
    | (Threw e, w') => handler e w'
    end.

Definition getenv (name : string) : M (option string) := fun w =>
  (Returned (env w !! name), w).

Definition console_error (e : JS.thrown) : M unit := fun w =>
  (Returned tt,
   World (env w) (contents w) (failure w) (calls w) (stderr w ++ [e])).

(** One driver call: it is logged, and it throws if the oracle says so;
    otherwise it returns [result], computed from the world. *)
Definition driver {A} (c : call) (result : world → A) : M A := fun w =>
  let o := failure w (length (calls w)) in
  let w' := World (env w) (contents w) (failure w) (calls w ++ [(c, o)])
              (stderr w) in
  match o with
  | Some e => (Threw e, w')
  | None => (Returned (result w), w')
  end.

(** The monad operations under stdpp's notations [x ← m; k] and
    [m;; k]. *)
#[global] Instance M_ret : MRet M := @ret.
#[global] Instance M_bind : MBind M := fun A B k m => bind m k.
#[global] Instance M_throw : MThrow JS.thrown M := @throw.

End Eff.

Import Bson Query Eff.

(** ** The program *)

(** [interface EmailCounts] *)
Record EmailCounts : Type := {
  total_documents : nat;
  actual_amount : nat;
  enu_count : nat;
  duplicate_emails : nat;
  empty_emails : nat
}.

Definition sentinel : string := "email_not_unlocked@domain.com".

Definition missing_uri_message : string :=
  "MONGODB_URI environment variable is not set in .env file".

(** The handles the driver gives out. *)
Record collection_handle : Type := {
  handle_db : JS.value;
  handle_name : JS.value
}.

Section Driver.
Variable collection : collection_handle.

Definition documents (w : world) : list document :=
  contents w (handle_db collection) (handle_name collection).

Definition collection_findOne (q : filter) (projection : list string)
  : M (option document) :=
  driver (FindOne q projection) (fun w => findOne q (documents w)).

Definition collection_countDocuments (q : filter)
    (options : option read_preference) : M nat :=
  driver (CountDocuments q options)
    (fun w => countDocuments q (documents w)).

Definition collection_distinct (key : string) (q : filter)
    (options : option read_preference) : M (list value) :=
  driver (Distinct key q options) (fun w => distinct key q (documents w)).

Definition collection_aggregate (pipeline : list stage)
  : M (list document) :=
  driver (Aggregate pipeline) (fun w => aggregate pipeline (documents w)).
End Driver.

Definition new_MongoClient (uri : string) (options : client_options)
  : M unit :=
  driver (NewClient uri options) (fun _ => tt).
Definition client_connect : M unit := driver Connect (fun _ => tt).
Definition client_db (name : JS.value) : M JS.value :=
  driver (Db name) (fun _ => name).
Definition database_collection (database name : JS.value)
  : M collection_handle :=
  driver (Collection name)
    (fun _ => {| handle_db := database; handle_name := name |}).
Definition client_close : M unit := driver Close (fun _ => tt).

Definition not_sentinel : filter := Field "email" (Ne (Str sentinel)).

Definition is_sentinel : filter := Field "email" (Eq (Str sentinel)).

Definition empty_filter : filter :=
  Or [ Field "email" (Exists false);
       Field "email" (Eq Null);
       Field "email" (Eq (Str "")) ].

Definition duplicateEmailPipeline : list stage :=
  [ Match not_sentinel;
    GroupCount "email";
    Match (Field "count" (Gt 1)) ].

(** The client is configured for reading only. *)
Definition read_only_options : client_options :=
  {| readPreference := SECONDARY_PREFERRED;
     readConcern_level := "majority";
     retryReads := true;
     maxPoolSize := 1 |}.

(** [!uri] for [uri = process.env.MONGODB_URI] *)
Definition uri_missing (uri : option string) : bool :=
  match uri with
  | None => true
  | Some s => bool_decide (s = "")
  end.

Definition countEmails (dbName collectionName : JS.value) : M EmailCounts :=
  uri ← getenv "MONGODB_URI";
  if uri_missing uri then mthrow (JS.Error missing_uri_message)
  else
    new_MongoClient (default "" uri) read_only_options;;
    try_finally
      (client_connect;;
       database ← client_db dbName;
       collection ← database_collection database collectionName;
       collection_findOne collection All ["_id"];;
       totalDocuments ← collection_countDocuments collection All None;
       uniqueEmails ←
         collection_distinct collection "email" not_sentinel
           (Some SECONDARY_PREFERRED);
       lockedEmails ←
         collection_countDocuments collection is_sentinel
           (Some SECONDARY_PREFERRED);
       emptyEmails ←
         collection_countDocuments collection empty_filter
           (Some SECONDARY_PREFERRED);
       duplicateEmailResults ←
         collection_aggregate collection duplicateEmailPipeline;
       let duplicateEmails := length duplicateEmailResults in
       mret {| total_documents := totalDocuments;
               actual_amount := length uniqueEmails;
               enu_count := lockedEmails;
               duplicate_emails := duplicateEmails;
               empty_emails := emptyEmails |})
      client_close.

(** The route. *)
Inductive payload : Type :=
| Counts (counts : EmailCounts)
| ErrorBody (error : string).

Record response : Type := {
  status : nat;
  json : payload
}.

Definition missing_fields_message : string :=
  "Missing required fields: database_name and collection_name are required".

Definition unknown_error_message : string := "An unknown error occurred".

(** [error instanceof Error ? error.message : 'An unknown error occurred'] *)
Definition error_text (error : JS.thrown) : string :=
  match error with
  | JS.Error message => message
  | JS.NotAnError _ => unknown_error_message
  end.

Definition post_count_emails (body : gmap string JS.value) : M response :=
  try_catch
    (let database_name := JS.get body "database_name" in
     let collection_name := JS.get body "collection_name" in
     if negb (JS.truthy database_name) || negb (JS.truthy collection_name)
     then mret {| status := 400; json := ErrorBody missing_fields_message |}
     else
       counts ← countEmails database_name collection_name;
       mret {| status := 200; json := Counts counts |})
    (fun error =>
       console_error error;;
       mret {| status := 500; json := ErrorBody (error_text error) |}).

(** ** Vocabulary of the statements *)

(** The five numbers as functions of the documents in the collection. *)
Definition counts_of (docs : list document) : EmailCounts :=
  {| total_documents := countDocuments All docs;
     actual_amount := length (distinct "email" not_sentinel docs);
     enu_count := countDocuments is_sentinel docs;
     duplicate_emails := length (aggregate duplicateEmailPipeline docs);
     empty_emails := countDocuments empty_filter docs |}.

(** No driver call from the [n]-th on fails. *)
Definition reliable_from (n : nat) (w : world) : Prop :=
  ∀ i, (n ≤ i)%nat → failure w i = None.

Definition uri_set (w : world) : Prop :=
  uri_missing (env w !! "MONGODB_URI") = false.

(** Both fields of the body are there and truthy. *)
Definition valid_request (body : gmap string JS.value) : Prop :=
  JS.truthy (JS.get body "database_name") = true
  ∧ JS.truthy (JS.get body "collection_name") = true.

(** The [email] field is absent, [null] or the empty string. *)
Definition email_blank (d : document) : bool :=
  match d !! "email" with
  | None | Some Null | Some (Str "") => true
  | _ => false
  end.


(** The [email] of a record, reading an absent field as [null]. *)
Definition email_or_null (d : document) : value := default Null (d !! "email").

(** The keys that reach the grouping stage. *)
Definition grouped_keys (docs : list document) : list value :=
  email_or_null <$> List.filter (matches not_sentinel) docs.

(** The [email] field is the sentinel string, or an array that has the
    sentinel string among its elements: what the query [{ email: sentinel }]
    selects and the query [{ email: { $ne: sentinel } }] leaves out. *)
Definition mentions_sentinel (d : document) : bool :=
  match d !! "email" with
  | Some (Str s) => bool_decide (s = sentinel)
  | Some (Arr elements) => bool_decide (Str sentinel ∈ elements)
  | _ => false
  end.

(** How many of the records that do not mention the sentinel have [k] as
    their [email], absent read as [null] and an array taken as one value. *)
Definition unlocked_with_email (k : value) (docs : list document) : nat :=
  length (List.filter
            (fun d => negb (mentions_sentinel d)
                      && bool_decide (email_or_null d = k)) docs).

(** The values a record has as its [email]: none when the field is
    absent, the elements when it is an array, the value itself otherwise. *)
Definition email_elements (d : document) : list value :=
  values_of (d !! "email").

(** The [email] field is absent, [null], the empty string, or an array
    that has [null] or the empty string among its elements. *)
Definition counts_as_empty (d : document) : bool :=
  match d !! "email" with
  | None | Some Null | Some (Str "") => true
  | Some (Arr elements) =>
      bool_decide (Null ∈ elements) || bool_decide (Str "" ∈ elements)
  | _ => false
  end.


(** The driver calls that are a [client.close()]. *)
Definition is_close (c : call) : bool :=
  match c with
  | Close => true
  | _ => false
  end.

(** Every record carries the string [e] as its [email]. *)
Definition all_share (e : string) (docs : list document) : Prop :=
  Forall (fun d : document => d !! "email" = Some (Str e)) docs.

(** *** The specification's readings, for comparison with the code *)

(** The values the [email] field takes in the collection, one per record
    that has the field. *)
Definition email_values (docs : list document) : list value :=
  omap (fun d : document => d !! "email") docs.

Definition other_than_sentinel (v : value) : bool :=
  negb (bool_decide (v = Str sentinel)).

(** "Number of unique non-empty values of the email field among records
    whose email is not the sentinel string": [null] and the empty string do
    not count. *)
Definition nonempty_value (v : value) : bool :=
  match v with
  | Null => false
  | Str s => negb (bool_decide (s = ""))
  | Int _ | Arr _ => true
  end.

Definition spec_actual_amount (docs : list document) : nat :=
  length (remove_dups
            (List.filter nonempty_value
               (List.filter other_than_sentinel (email_values docs)))).

(** "Group records by email, keep groups of size > 1, and count the
    groups", over the email values other than the sentinel. *)
Definition spec_duplicate_emails (docs : list document) : nat :=
  let values := List.filter other_than_sentinel (email_values docs) in
  length (List.filter (fun v => 1 <? occurrences v values)%nat
            (remove_dups values)).

(** *** Worlds to run the program in *)

Definition an_env : gmap string string :=
  {[ "MONGODB_URI" := "mongodb://localhost:27017" ]}.

(** Every collection holds [docs] and the driver never fails. *)
Definition quiet_world (docs : list document) : world :=
  World an_env (fun _ _ => docs) (fun _ => None) [] [].

(** As [quiet_world], but the [n]-th driver call throws [e]. *)
Definition failing_world (n : nat) (e : JS.thrown) (docs : list document)
  : world :=
  World an_env (fun _ _ => docs)
    (fun i => if (i =? n)%nat then Some e else None) [] [].

(** As [quiet_world], without the connection string. *)
Definition unconfigured_world (docs : list document) : world :=
  World ∅ (fun _ _ => docs) (fun _ => None) [] [].

Definition a_body : gmap string JS.value :=
  {[ "database_name" := JS.Str "crm"; "collection_name" := JS.Str "leads" ]}.

Definition with_email (e : string) : document := {[ "email" := Str e ]}.
Definition with_null_email : document := {[ "email" := Null ]}.
Definition without_email : document := {[ "name" := Str "Ada" ]}.

(** Records with a missing, a [null] and an empty [email], and one with an
    address. *)
Definition mixed_blank_docs : list document :=
  [ without_email; with_null_email; with_email "";
    with_email "ada@example.org" ].

Definition blank_values_docs : list document :=
  [ with_email ""; with_null_email; without_email ].

Definition absent_and_null_docs : list document :=
  [ without_email; with_null_email ].

Definition three_alike_docs : list document :=
  [ with_email "ada@example.org"; with_email "ada@example.org";
    with_email "ada@example.org" ].

Definition body_without_collection : gmap string JS.value :=
  {[ "database_name" := JS.Str "crm" ]}.

(** *** Vocabulary of the further properties *)

(** The [email] field holds an array. *)
Definition email_is_array (d : document) : bool :=
  match d !! "email" with
  | Some (Arr _) => true
  | _ => false
  end.

(** No record has an array as its [email]. *)
Definition scalar_emails (docs : list document) : Prop :=
  Forall (fun d : document => email_is_array d = false) docs.

(** What each record has as its [email], in the order of the records;
    [None] for a record without the field. *)
Definition emails (docs : list document) : list (option value) :=
  (fun d : document => d !! "email") <$> docs.

(** Every record has an [email] field. *)
Definition all_have_email (docs : list document) : Prop :=
  Forall (fun d : document => is_Some (d !! "email")) docs.

(** The collection without the records that mention the sentinel. *)
Definition without_sentinel (docs : list document) : list document :=
  List.filter (fun d => negb (mentions_sentinel d)) docs.

(** What the driver calls of a log threw, oldest first. *)
Definition failures (log : list (call * option JS.thrown))
  : list JS.thrown :=
  omap snd log.

Definition no_counts : EmailCounts :=
  {| total_documents := 0; actual_amount := 0; enu_count := 0;
     duplicate_emails := 0; empty_emails := 0 |}.

(** Two duplicated addresses, a sentinel record, a blank one. *)
Definition busy_docs : list document :=
  [ with_email "ada@example.org"; with_email sentinel;
    with_email "bob@example.org"; without_email;
    with_email "ada@example.org"; with_email "bob@example.org";
    with_email sentinel; with_email "cy@example.org" ].

(** The records of [mixed_blank_docs] with other fields changed. *)
Definition annotated_blank_docs : list document :=
  [ {[ "name" := Str "Grace"; "phone" := Int 5550100 ]};
    {[ "email" := Null; "name" := Str "Ada" ]};
    {[ "email" := Str ""; "score" := Int 7 ]};
    {[ "email" := Str "ada@example.org"; "name" := Null ]} ].

Definition with_emails (es : list string) : document :=
  {[ "email" := Arr (Str <$> es) ]}.

(** Records whose [email] is an array: one with the empty string in it,
    two alike with the sentinel in them, one with two addresses. *)
Definition array_docs : list document :=
  [ with_emails [""];
    with_emails ["ada@example.org"; sentinel];
    with_emails ["ada@example.org"; sentinel];
    with_emails ["bob@example.org"; "cy@example.org"];
    with_email "ada@example.org" ].

(** A record without [email], one with a [null] one, and two alike whose
    [email] is an array with the sentinel in it. *)
Definition locked_pair_docs : list document :=
  [ without_email; with_null_email;
    with_emails ["ada@example.org"; sentinel];
    with_emails ["ada@example.org"; sentinel] ].

(** The records of [array_docs] and of [busy_docs] together. *)
Definition crowded_docs : list document := (array_docs ++ busy_docs)%list.

(** A body whose two fields are truthy but are not strings. *)
Definition odd_body : gmap string JS.value :=
  {[ "database_name" := JS.Num 7; "collection_name" := JS.Object ]}.

(** ** Tactics *)

Ltac unfold_program :=
  unfold countEmails, try_finally, try_catch, getenv, console_error,
    new_MongoClient, client_connect, client_db, database_collection,
    client_close, collection_findOne, collection_countDocuments,
    collection_distinct, collection_aggregate, documents, driver,
    mbind, mret, mthrow, M_bind, M_ret, M_throw, bind, ret, throw.

(** Case analysis on what the oracle answers to the next driver call. *)
Ltac next_call :=
  match goal with
  | |- context [failure ?w ?n] =>
      lazymatch goal with
      | H : failure w n = _ |- _ => rewrite H
      | _ => let E := fresh "Hcall" in destruct (failure w n) eqn:E
      end; cbn [fst snd calls env contents failure stderr handle_db handle_name]
  end.

(** The run of [countEmails] on the collection [leads] of the database
    [crm] in [quiet_world docs], evaluated. *)
Ltac ran docs H :=
  assert (H : countEmails (JS.Str "crm") (JS.Str "leads") (quiet_world docs)
              = (Returned (counts_of docs),
                 snd (countEmails (JS.Str "crm") (JS.Str "leads")
                        (quiet_world docs))))
    by (vm_compute; reflexivity).

(** A closed decidable proposition, by evaluation. *)
Ltac decide_true := apply (bool_decide_unpack _); vm_compute; exact I.

(** Case analysis on a membership in an explicit list. *)
Ltac cases_in H :=
  rewrite ?elem_of_cons, ?elem_of_nil in H; destruct_or? H;
  try done; subst.

(** Evaluation of what the statements read off explicit records. *)
Ltac eval_records_in H :=
  repeat match type of H with
         | context [mentions_sentinel ?d] =>
             let b := eval vm_compute in (mentions_sentinel d) in
             change (mentions_sentinel d) with b in H
         | context [email_or_null ?d] =>
             let v := eval vm_compute in (email_or_null d) in
             change (email_or_null d) with v in H
         end.

(** Evaluation of the list in a membership [_ ∈ l]. *)
Ltac eval_list_in H :=
  match type of H with
  | _ ∈ ?l => let l' := eval vm_compute in l in change l with l' in H
  end.

(** ** What a call computes when it returns *)

Lemma countEmails_returned dbName collectionName w r w' :
  countEmails dbName collectionName w = (Returned r, w') →
  r = counts_of (contents w dbName collectionName).
Proof.
  unfold_program. cbn.
  destruct (uri_missing _); [discriminate |].
  repeat next_call; intros H; try discriminate.
  by inversion H.
Qed.

Lemma countEmails_reads_only dbName collectionName w :
  let w' := snd (countEmails dbName collectionName w) in
  env w' = env w ∧ contents w' = contents w ∧ failure w' = failure w
  ∧ stderr w' = stderr w.
Proof.
  unfold_program. cbn.
  destruct (uri_missing _); [done |].
  repeat next_call; done.
Qed.

Lemma countEmails_returns dbName collectionName w :
  uri_set w → reliable_from (length (calls w)) w →
  ∃ w', countEmails dbName collectionName w
        = (Returned (counts_of (contents w dbName collectionName)), w').
Proof.
  unfold uri_set, reliable_from. intros Huri Hrel.
  unfold_program. cbn. rewrite Huri.
  repeat (rewrite Hrel by (rewrite ?length_app; cbn; lia); cbn).
  eauto.
Qed.

(** ** Lists filtered by a boolean test *)

Section BoolFilter.
Context {A : Type}.
Implicit Types (f g : A → bool) (l k : list A).

Lemma elem_of_bfilter f l x : x ∈ List.filter f l ↔ x ∈ l ∧ f x = true.
Proof. by rewrite !list_elem_of_In, filter_In. Qed.

Lemma NoDup_bfilter f l : NoDup l → NoDup (List.filter f l).
Proof. rewrite !NoDup_ListNoDup. apply List.NoDup_filter. Qed.

Lemma bfilter_ext_in f g l :
  (∀ x, x ∈ l → f x = g x) → List.filter f l = List.filter g l.
Proof.
  intros H. apply filter_ext_in. intros x Hx. apply H.
  by apply list_elem_of_In.
Qed.

Lemma bfilter_fmap {B} (h : B → A) f (l : list B) :
  List.filter f (h <$> l) = h <$> List.filter (fun x => f (h x)) l.
Proof.
  induction l as [| x l IH]; [done |].
  cbn. destruct (f (h x)); cbn; by rewrite IH.
Qed.

Lemma NoDup_same_length l k :
  NoDup l → NoDup k → (∀ x, x ∈ l ↔ x ∈ k) → length l = length k.
Proof.
  intros Hl Hk Hlk. apply Permutation_length. by apply NoDup_Permutation.
Qed.
End BoolFilter.

(** ** How the three filters of the program read a document *)

Lemma matches_empty_filter d : matches empty_filter d = counts_as_empty d.
Proof.
  unfold empty_filter, counts_as_empty. cbn.
  destruct (d !! "email") as [[| s | z | elements] |]; cbn; try done.
  - by destruct s.
  - by rewrite orb_false_r.
Qed.

Lemma matches_is_sentinel d : matches is_sentinel d = mentions_sentinel d.
Proof.
  unfold is_sentinel, mentions_sentinel. cbn [matches holds eq_match].
  destruct (d !! "email") as [[| s | z | elements] |]; cbn; try done.
  apply eq_true_iff_eq. rewrite !bool_decide_eq_true. naive_solver.
Qed.

Lemma matches_not_sentinel d :
  matches not_sentinel d = negb (mentions_sentinel d).
Proof. by rewrite <- matches_is_sentinel. Qed.

Lemma mentions_sentinel_by_email d :
  mentions_sentinel d = eq_match (Str sentinel) (d !! "email").
Proof. by rewrite <- matches_is_sentinel. Qed.

(** ** Running the program in the example worlds *)

Lemma quiet_world_runs docs dbName collectionName :
  ∃ w', countEmails dbName collectionName (quiet_world docs)
        = (Returned (counts_of docs), w').
Proof.
  apply (countEmails_returns dbName collectionName (quiet_world docs)).
  - reflexivity.
  - intros i _. reflexivity.
Qed.

(** ** empty_emails *)

(** C4, as the code has it: [empty_emails] is the number of records whose
    [email] is absent, [null], the empty string, or an array that has
    [null] or the empty string among its elements; the records are
    counted, so each of them once, whichever of the three alternatives of
    the query it matches. *)
Theorem empty_emails_counts_blank_records dbName collectionName w r w' :
  countEmails dbName collectionName w = (Returned r, w') →
  empty_emails r
  = length (List.filter counts_as_empty (contents w dbName collectionName)).
Proof.
  intros ->%countEmails_returned. cbn. unfold countDocuments.
  f_equal. apply bfilter_ext_in. intros d _. apply matches_empty_filter.
Qed.

Lemma empty_emails_counts_blank_records_witness :
  let w := quiet_world mixed_blank_docs in
  let run := countEmails (JS.Str "crm") (JS.Str "leads") w in
  run = (Returned (counts_of mixed_blank_docs), snd run)
  ∧ empty_emails (counts_of mixed_blank_docs) = 3.
Proof.
  assert (Hrun : countEmails (JS.Str "crm") (JS.Str "leads")
                   (quiet_world mixed_blank_docs)
                 = (Returned (counts_of mixed_blank_docs),
                    snd (countEmails (JS.Str "crm") (JS.Str "leads")
                           (quiet_world mixed_blank_docs))))
    by (vm_compute; reflexivity).
  split; [exact Hrun |].
  rewrite (empty_emails_counts_blank_records _ _ _ _ _ Hrun).
  vm_compute. reflexivity.
Defined.

(** C4, as the specification words it, fails: a record whose [email] is
    an array with the empty string in it matches [{ email: '' }] and is
    counted, although its [email] is not absent, [null] or the empty
    string. *)
Lemma empty_emails_counts_array_elements :
  ¬ (∀ dbName collectionName w r w',
        countEmails dbName collectionName w = (Returned r, w') →
        empty_emails r
        = length (List.filter email_blank
                    (contents w dbName collectionName))).
Proof.
  intros Hclaim. ran [with_emails [""]] Hrun.
  apply Hclaim in Hrun. vm_compute in Hrun. discriminate.
Qed.

(** ** actual_amount *)

Lemma elem_of_distinct_email v docs :
  v ∈ distinct "email" not_sentinel docs
  ↔ ∃ d, d ∈ docs ∧ mentions_sentinel d = false ∧ v ∈ email_elements d.
Proof.
  unfold distinct, email_elements.
  rewrite elem_of_remove_dups, list_elem_of_bind.
  split.
  - intros (d & Hv & [Hd Hm]%elem_of_bfilter).
    rewrite matches_not_sentinel, negb_true_iff in Hm. eauto.
  - intros (d & Hd & Hm & Hv). exists d. split; [done |].
    apply elem_of_bfilter. split; [done |].
    by rewrite matches_not_sentinel, Hm.
Qed.

(** C2, as the code has it: [actual_amount] is the number of different
    values that the [email] field takes among the records whose [email] is
    not the sentinel and is not an array with the sentinel in it.  A record
    without the field contributes no value; an array contributes each of
    its elements; [null] and the empty string are values like any other
    and are counted. *)
Theorem actual_amount_counts_distinct_values
    dbName collectionName w r w' (vs : list value) :
  countEmails dbName collectionName w = (Returned r, w') →
  NoDup vs →
  (∀ v, v ∈ vs
        ↔ ∃ d, d ∈ contents w dbName collectionName
               ∧ mentions_sentinel d = false
               ∧ v ∈ email_elements d) →
  actual_amount r = length vs.
Proof.
  intros ->%countEmails_returned Hvs Hiff. cbn.
  apply NoDup_same_length; [apply NoDup_remove_dups | done |].
  intros v. by rewrite elem_of_distinct_email, Hiff.
Qed.

Lemma actual_amount_counts_distinct_values_witness :
  let w := quiet_world array_docs in
  let run := countEmails (JS.Str "crm") (JS.Str "leads") w in
  run = (Returned (counts_of array_docs), snd run)
  ∧ actual_amount (counts_of array_docs) = 4.
Proof.
  ran array_docs Hrun. split; [exact Hrun |].
  apply (actual_amount_counts_distinct_values _ _ _ _ _
           [Str ""; Str "bob@example.org"; Str "cy@example.org";
            Str "ada@example.org"] Hrun); clear Hrun.
  - decide_true.
  - intros v. cbn [contents quiet_world]. split.
    + intros Hv. cases_in Hv.
      * exists (with_emails [""]). repeat split; decide_true.
      * exists (with_emails ["bob@example.org"; "cy@example.org"]).
        repeat split; decide_true.
      * exists (with_emails ["bob@example.org"; "cy@example.org"]).
        repeat split; decide_true.
      * exists (with_email "ada@example.org"). repeat split; decide_true.
    + intros (d & Hd & Hm & Hv). unfold array_docs in Hd. cases_in Hd;
        vm_compute in Hm; try discriminate Hm;
        eval_list_in Hv; cases_in Hv; decide_true.
Defined.

(** C2, as the specification words it, fails: a record whose [email] is the
    empty string and one whose [email] is [null] each add one to
    [actual_amount]. *)
Lemma actual_amount_counts_blank_values :
  ¬ (∀ dbName collectionName w r w',
        countEmails dbName collectionName w = (Returned r, w') →
        actual_amount r
        = spec_actual_amount (contents w dbName collectionName)).
Proof.
  intros Hclaim.
  assert (Hrun : countEmails (JS.Str "crm") (JS.Str "leads")
                   (quiet_world blank_values_docs)
                 = (Returned (counts_of blank_values_docs),
                    snd (countEmails (JS.Str "crm") (JS.Str "leads")
                           (quiet_world blank_values_docs))))
    by (vm_compute; reflexivity).
  apply Hclaim in Hrun. vm_compute in Hrun. discriminate.
Qed.

(** ** duplicate_emails *)

Lemma matches_count_gt_1 k n :
  matches (Field "count" (Gt 1)) (group_doc k n) = (1 <? n)%nat.
Proof.
  unfold group_doc. cbn [matches].
  rewrite lookup_insert_ne by done. rewrite lookup_singleton_eq.
  cbn [holds above].
  destruct (Nat.ltb_spec 1 n), (Z.ltb_spec 1 (Z.of_nat n)); done || lia.
Qed.


Lemma aggregate_duplicates docs :
  aggregate duplicateEmailPipeline docs
  = (fun k => group_doc k (occurrences k (grouped_keys docs)))
      <$> List.filter (fun k => 1 <? occurrences k (grouped_keys docs))%nat
            (remove_dups (grouped_keys docs)).
Proof.
  unfold aggregate, duplicateEmailPipeline. cbn [foldl run_stage].
  unfold group_count. rewrite bfilter_fmap.
  f_equal. apply bfilter_ext_in. intros k _. apply matches_count_gt_1.
Qed.

Lemma occurrences_grouped_keys k docs :
  occurrences k (grouped_keys docs) = unlocked_with_email k docs.
Proof.
  unfold grouped_keys, unlocked_with_email, occurrences.
  induction docs as [| d docs IH]; [done |].
  cbn [List.filter]. rewrite matches_not_sentinel.
  destruct (mentions_sentinel d); cbn [negb andb]; [exact IH |].
  cbn [fmap list_fmap List.filter].
  destruct (bool_decide (email_or_null d = k)); cbn; by rewrite <- IH.
Qed.

Lemma occurrences_pos k (keys : list value) :
  (0 < occurrences k keys)%nat → k ∈ keys.
Proof.
  unfold occurrences. induction keys as [| k' keys IH]; cbn; [lia |].
  case_bool_decide as Hk; cbn; intros H.
  - subst. apply elem_of_cons. by left.
  - apply elem_of_cons. right. by apply IH.
Qed.

Lemma elem_of_duplicate_keys k docs :
  k ∈ List.filter (fun k => 1 <? occurrences k (grouped_keys docs))%nat
        (remove_dups (grouped_keys docs))
  ↔ (2 ≤ unlocked_with_email k docs)%nat.
Proof.
  rewrite elem_of_bfilter, elem_of_remove_dups, Nat.ltb_lt.
  rewrite occurrences_grouped_keys. split; [lia |].
  intros Hn. split; [| lia].
  apply occurrences_pos. rewrite occurrences_grouped_keys. lia.
Qed.

(** C1, as the code has it: [duplicate_emails] is the number of different
    values that are the [email] of two records or more, among the records
    whose [email] is not the sentinel and is not an array with the sentinel
    in it.  A record without the field counts as one whose [email] is
    [null], and an array is one value.  Each such value counts once,
    whatever the size of its group. *)
Theorem duplicate_emails_counts_groups
    dbName collectionName w r w' (ks : list value) :
  countEmails dbName collectionName w = (Returned r, w') →
  NoDup ks →
  (∀ k, k ∈ ks
        ↔ (2 ≤ unlocked_with_email k
                 (contents w dbName collectionName))%nat) →
  duplicate_emails r = length ks.
Proof.
  intros ->%countEmails_returned Hks Hiff. cbn [duplicate_emails counts_of].
  rewrite aggregate_duplicates, length_fmap.
  apply NoDup_same_length;
    [apply NoDup_bfilter, NoDup_remove_dups | done |].
  intros k. by rewrite elem_of_duplicate_keys, Hiff.
Qed.

Lemma duplicate_emails_counts_groups_witness :
  let w := quiet_world locked_pair_docs in
  let run := countEmails (JS.Str "crm") (JS.Str "leads") w in
  run = (Returned (counts_of locked_pair_docs), snd run)
  ∧ duplicate_emails (counts_of locked_pair_docs) = 1.
Proof.
  ran locked_pair_docs Hrun. split; [exact Hrun |].
  apply (duplicate_emails_counts_groups _ _ _ _ _ [Null] Hrun); clear Hrun.
  - apply NoDup_singleton.
  - intros k. cbn [contents quiet_world].
    rewrite list_elem_of_singleton. split.
    + intros ->. vm_compute. lia.
    + unfold locked_pair_docs, unlocked_with_email. cbn [List.filter].
      intros Hn. eval_records_in Hn. cbn [negb andb] in Hn.
      case_bool_decide; [done | cbn in Hn; lia].
Defined.

(** C1, as the specification words it, fails: a record without an [email]
    and a record whose [email] is [null] form a group of two, although no
    email value occurs in more than one record ([null] occurs once, and
    the other record has no value; keeping the records without the field
    in a group of their own would give two groups of one). *)
Lemma duplicate_emails_groups_absent_with_null :
  ¬ (∀ dbName collectionName w r w',
        countEmails dbName collectionName w = (Returned r, w') →
        duplicate_emails r
        = spec_duplicate_emails (contents w dbName collectionName)).
Proof.
  intros Hclaim.
  assert (Hrun : countEmails (JS.Str "crm") (JS.Str "leads")
                   (quiet_world absent_and_null_docs)
                 = (Returned (counts_of absent_and_null_docs),
                    snd (countEmails (JS.Str "crm") (JS.Str "leads")
                           (quiet_world absent_and_null_docs))))
    by (vm_compute; reflexivity).
  apply Hclaim in Hrun. vm_compute in Hrun. discriminate.
Qed.

(** ** A collection whose records all share one address *)

Section BoolFilterAll.
Context {A : Type}.
Implicit Types (f : A → bool) (l : list A).

Lemma bfilter_all f l : (∀ x, x ∈ l → f x = true) → List.filter f l = l.
Proof.
  induction l as [| x l IH]; intros H; [done |].
  cbn. rewrite H by (apply elem_of_cons; by left).
  f_equal. apply IH. intros y Hy. apply H, elem_of_cons. by right.
Qed.

Lemma bfilter_none f l : (∀ x, x ∈ l → f x = false) → List.filter f l = [].
Proof.
  induction l as [| x l IH]; intros H; [done |].
  cbn. rewrite H by (apply elem_of_cons; by left).
  apply IH. intros y Hy. apply H, elem_of_cons. by right.
Qed.

End BoolFilterAll.

Lemma remove_dups_replicate `{EqDecision A} (x : A) n :
  remove_dups (replicate (S n) x) = [x].
Proof.
  induction n as [| n IH]; [done |].
  change (replicate (S (S n)) x) with (x :: replicate (S n) x).
  cbn [remove_dups].
  destruct (decide_rel elem_of x (replicate (S n) x)) as [_ | Hn];
    [exact IH |].
  exfalso. apply Hn, elem_of_cons. by left.
Qed.

Lemma occurrences_replicate k n : occurrences k (replicate n k) = n.
Proof.
  unfold occurrences. induction n as [| n IH]; [done |].
  cbn. rewrite bool_decide_eq_true_2 by done. cbn. by rewrite IH.
Qed.

Section SharedEmail.
Variables (e : string) (docs : list document).
Hypothesis shared : all_share e docs.
Hypothesis not_the_sentinel : e ≠ sentinel.

Lemma shared_email d : d ∈ docs → d !! "email" = Some (Str e).
Proof. revert d. by apply Forall_forall. Qed.

Lemma shared_not_mentioned d : d ∈ docs → mentions_sentinel d = false.
Proof.
  intros Hd. unfold mentions_sentinel. rewrite (shared_email d Hd).
  by apply bool_decide_eq_false.
Qed.

Lemma shared_pass_not_sentinel :
  List.filter (matches not_sentinel) docs = docs.
Proof.
  apply bfilter_all. intros d Hd.
  by rewrite matches_not_sentinel, shared_not_mentioned.
Qed.

Lemma shared_email_values :
  docs ≫= (fun d : document => values_of (d !! "email"))
  = replicate (length docs) (Str e).
Proof.
  clear not_the_sentinel. induction shared as [| d l Hd Hl IH]; [done |].
  rewrite bind_cons, Hd, IH by exact Hl. done.
Qed.

Lemma shared_grouped_keys :
  grouped_keys docs = replicate (length docs) (Str e).
Proof.
  unfold grouped_keys. rewrite shared_pass_not_sentinel.
  clear not_the_sentinel. induction shared as [| d l Hd Hl IH]; [done |].
  cbn. unfold email_or_null at 1. rewrite Hd. cbn. by rewrite IH.
Qed.

Lemma shared_no_sentinel : countDocuments is_sentinel docs = 0.
Proof.
  unfold countDocuments. rewrite bfilter_none; [done |].
  intros d Hd. by rewrite matches_is_sentinel, shared_not_mentioned.
Qed.

Lemma shared_no_blank : e ≠ "" → countDocuments empty_filter docs = 0.
Proof.
  intros Hne. unfold countDocuments. rewrite bfilter_none; [done |].
  intros d Hd. rewrite matches_empty_filter. unfold counts_as_empty.
  rewrite (shared_email d Hd). by destruct e.
Qed.
End SharedEmail.

(** C3, as the code has it: [N ≥ 1] records that all carry the same
    non-empty address, not the sentinel, give [total_documents = N],
    [actual_amount = 1], [enu_count = 0], [empty_emails = 0], and
    [duplicate_emails = 1] as soon as there are two records; a single record
    is no duplicate and gives [duplicate_emails = 0]. *)
Theorem shared_email_counts N e dbName collectionName w r w' :
  (1 ≤ N)%nat → e ≠ sentinel → e ≠ "" →
  length (contents w dbName collectionName) = N →
  all_share e (contents w dbName collectionName) →
  countEmails dbName collectionName w = (Returned r, w') →
  r = {| total_documents := N;
         actual_amount := 1;
         enu_count := 0;
         duplicate_emails := if (N =? 1)%nat then 0 else 1;
         empty_emails := 0 |}.
Proof.
  intros HN Hs He Hlen Hall ->%countEmails_returned.
  set (docs := contents w dbName collectionName) in *.
  unfold counts_of. f_equal.
  - unfold countDocuments. by rewrite bfilter_all.
  - unfold distinct.
    rewrite (shared_pass_not_sentinel e), (shared_email_values e), Hlen by done.
    destruct N as [| n]; [lia |]. by rewrite remove_dups_replicate.
  - by apply (shared_no_sentinel e).
  - rewrite aggregate_duplicates, length_fmap.
    rewrite (shared_grouped_keys e), Hlen by done.
    destruct N as [| n]; [lia |]. rewrite remove_dups_replicate.
    cbn [List.filter]. rewrite occurrences_replicate.
    destruct n as [| n]; done.
  - by apply (shared_no_blank e).
Qed.

Lemma shared_email_counts_witness :
  let w := quiet_world three_alike_docs in
  let run := countEmails (JS.Str "crm") (JS.Str "leads") w in
  run = (Returned (counts_of three_alike_docs), snd run)
  ∧ counts_of three_alike_docs
    = {| total_documents := 3; actual_amount := 1; enu_count := 0;
         duplicate_emails := 1; empty_emails := 0 |}.
Proof.
  assert (Hrun : countEmails (JS.Str "crm") (JS.Str "leads")
                   (quiet_world three_alike_docs)
                 = (Returned (counts_of three_alike_docs),
                    snd (countEmails (JS.Str "crm") (JS.Str "leads")
                           (quiet_world three_alike_docs))))
    by (vm_compute; reflexivity).
  split; [exact Hrun |].
  eapply (shared_email_counts 3 "ada@example.org" (JS.Str "crm")
            (JS.Str "leads") (quiet_world three_alike_docs));
    [lia | discriminate | discriminate | reflexivity
    | repeat constructor | exact Hrun].
Defined.

(** C3, as the specification words it, fails for [N = 1]: one record is a
    group of size one, which the pipeline drops. *)
Lemma single_record_is_no_duplicate :
  ¬ (∀ N e dbName collectionName w r w',
        (1 ≤ N)%nat → e ≠ sentinel → e ≠ "" →
        length (contents w dbName collectionName) = N →
        all_share e (contents w dbName collectionName) →
        countEmails dbName collectionName w = (Returned r, w') →
        r = {| total_documents := N; actual_amount := 1; enu_count := 0;
               duplicate_emails := 1; empty_emails := 0 |}).
Proof.
  intros Hclaim.
  assert (Hrun : countEmails (JS.Str "crm") (JS.Str "leads")
                   (quiet_world [with_email "ada@example.org"])
                 = (Returned (counts_of [with_email "ada@example.org"]),
                    snd (countEmails (JS.Str "crm") (JS.Str "leads")
                           (quiet_world [with_email "ada@example.org"]))))
    by (vm_compute; reflexivity).
  apply (Hclaim 1 "ada@example.org") in Hrun;
    [| lia | discriminate | discriminate | reflexivity
     | repeat constructor].
  vm_compute in Hrun. discriminate.
Qed.

(** ** Records without an address in the duplicate pipeline *)






(** ** The route *)

(** C5: a body in which [database_name] or [collection_name] is missing or
    falsy is answered 400 with the fixed message, and the world is left as
    it was: no driver call is made, so [countEmails] did not run. *)
Theorem missing_fields_is_400 body w :
  JS.truthy (JS.get body "database_name") = false
  ∨ JS.truthy (JS.get body "collection_name") = false →
  post_count_emails body w
  = (Returned {| status := 400; json := ErrorBody missing_fields_message |},
     w).
Proof.
  unfold post_count_emails, try_catch, mret, M_ret, ret.
  intros [H | H]; rewrite H; [done |].
  by rewrite orb_true_r.
Qed.

Lemma missing_fields_is_400_witness :
  JS.truthy (JS.get body_without_collection "collection_name") = false
  ∧ post_count_emails body_without_collection (quiet_world mixed_blank_docs)
    = (Returned {| status := 400;
                   json := ErrorBody missing_fields_message |},
       quiet_world mixed_blank_docs).
Proof.
  split; [reflexivity |].
  apply missing_fields_is_400. right. reflexivity.
Defined.

Lemma post_valid body w :
  valid_request body →
  post_count_emails body w
  = match countEmails (JS.get body "database_name")
            (JS.get body "collection_name") w with
    | (Returned counts, w') =>
        (Returned {| status := 200; json := Counts counts |}, w')
    | (Threw error, w') =>
        (Returned {| status := 500; json := ErrorBody (error_text error) |},
         World (env w') (contents w') (failure w') (calls w')
           (stderr w' ++ [error]))
    end.
Proof.
  intros [Hd Hc]. unfold post_count_emails, try_catch. rewrite Hd, Hc.
  cbn [negb orb]. unfold mbind, M_bind, bind.
  by destruct (countEmails _ _ w) as [[counts | error] w'].
Qed.

(** C6, as the code has it: when [countEmails] throws during a valid
    request, the answer is 500 with [{ error: m }], where [m] is the
    message of the thrown value if that is an [Error], and the fallback
    text otherwise.  [m] is empty exactly when an [Error] with an empty
    message was thrown. *)
Theorem thrown_error_is_500 body w e w1 :
  valid_request body →
  countEmails (JS.get body "database_name") (JS.get body "collection_name") w
  = (Threw e, w1) →
  (∃ w', post_count_emails body w
         = (Returned {| status := 500; json := ErrorBody (error_text e) |},
            w'))
  ∧ (∀ m, e = JS.Error m → error_text e = m)
  ∧ (∀ v, e = JS.NotAnError v → error_text e = unknown_error_message)
  ∧ (error_text e = "" ↔ e = JS.Error "").
Proof.
  intros Hvalid Hrun. rewrite (post_valid _ _ Hvalid), Hrun.
  split; [eauto |].
  repeat split; try (by intros; subst).
  destruct e as [m | v]; cbn; [by intros -> | done].
Qed.

Lemma thrown_error_is_500_witness :
  let w := failing_world 1 (JS.Error "connect ECONNREFUSED") [] in
  valid_request a_body
  ∧ (∃ w', post_count_emails a_body w
           = (Returned {| status := 500;
                          json := ErrorBody "connect ECONNREFUSED" |}, w')).
Proof.
  assert (Hvalid : valid_request a_body) by (split; reflexivity).
  assert (Hrun :
      countEmails (JS.get a_body "database_name")
        (JS.get a_body "collection_name")
        (failing_world 1 (JS.Error "connect ECONNREFUSED") [])
      = (Threw (JS.Error "connect ECONNREFUSED"),
         snd (countEmails (JS.get a_body "database_name")
                (JS.get a_body "collection_name")
                (failing_world 1 (JS.Error "connect ECONNREFUSED") []))))
    by (vm_compute; reflexivity).
  split; [exact Hvalid |].
  exact (proj1 (thrown_error_is_500 _ _ _ _ Hvalid Hrun)).
Defined.

(** C6, as the specification words it, fails: an [Error] thrown with an
    empty message is answered with an empty [error] text. *)
Lemma empty_message_is_passed_on :
  ¬ (∀ body w e w1,
        valid_request body →
        countEmails (JS.get body "database_name")
          (JS.get body "collection_name") w
        = (Threw e, w1) →
        ∃ m w', post_count_emails body w
                = (Returned {| status := 500; json := ErrorBody m |}, w')
                ∧ m ≠ "").
Proof.
  intros Hclaim.
  assert (Hvalid : valid_request a_body) by (split; reflexivity).
  assert (Hrun :
      countEmails (JS.get a_body "database_name")
        (JS.get a_body "collection_name")
        (failing_world 1 (JS.Error "") [])
      = (Threw (JS.Error ""),
         snd (countEmails (JS.get a_body "database_name")
                (JS.get a_body "collection_name")
                (failing_world 1 (JS.Error "") []))))
    by (vm_compute; reflexivity).
  destruct (Hclaim _ _ _ _ Hvalid Hrun) as (m & w' & Hpost & Hm).
  rewrite (post_valid _ _ Hvalid), Hrun in Hpost.
  apply Hm. by inversion Hpost.
Qed.

(** C7: without [MONGODB_URI] in the environment, [countEmails] throws
    before any driver call, the client constructor included, and a valid
    request is answered 500 with the message that names the missing
    variable. *)
Theorem missing_uri_is_500 body w :
  valid_request body →
  env w !! "MONGODB_URI" = None →
  countEmails (JS.get body "database_name") (JS.get body "collection_name") w
  = (Threw (JS.Error missing_uri_message), w)
  ∧ ∃ w', post_count_emails body w
          = (Returned {| status := 500;
                         json := ErrorBody missing_uri_message |}, w')
          ∧ calls w' = calls w.
Proof.
  intros Hvalid Huri.
  assert (∀ d c, countEmails d c w
                 = (Threw (JS.Error missing_uri_message), w)) as Hrun.
  { intros d c. unfold_program. cbn. by rewrite Huri. }
  split; [apply Hrun |].
  rewrite (post_valid _ _ Hvalid), Hrun. eauto.
Qed.

Lemma missing_uri_is_500_witness :
  valid_request a_body
  ∧ ∃ w', post_count_emails a_body (unconfigured_world mixed_blank_docs)
          = (Returned {| status := 500;
                         json := ErrorBody missing_uri_message |}, w')
          ∧ calls w' = [].
Proof.
  assert (Hvalid : valid_request a_body) by (split; reflexivity).
  split; [exact Hvalid |].
  exact (proj2 (missing_uri_is_500 a_body
                  (unconfigured_world mixed_blank_docs) Hvalid eq_refl)).
Defined.

(** ** The connection *)

(** C8: once the client exists, whatever the probe and the queries do,
    and whether the call returns or throws, the driver calls of
    [countEmails] are [new MongoClient], then [connect], then the calls
    made until the first failure, then [close], which is made once and is
    the last call. *)
Theorem connection_closed_on_every_path dbName collectionName w :
  uri_set w →
  failure w (length (calls w)) = None →
  ∃ uri new,
    calls (snd (countEmails dbName collectionName w)) = (calls w ++ new)%list
    ∧ new !! 0 = Some (NewClient uri read_only_options, None)
    ∧ (fst <$> new) !! 1 = Some Connect
    ∧ last (fst <$> new) = Some Close
    ∧ length (List.filter is_close (fst <$> new)) = 1.
Proof.
  unfold uri_set. intros Huri Hclient.
  exists (default "" (env w !! "MONGODB_URI")).
  unfold_program. cbn. rewrite Huri.
  repeat next_call;
    (eexists; split; [rewrite <- !app_assoc; reflexivity |]);
    repeat split; reflexivity.
Qed.

Lemma connection_closed_on_every_path_witness :
  let w := failing_world 6 (JS.Error "not primary") mixed_blank_docs in
  ∃ e, fst (countEmails (JS.Str "crm") (JS.Str "leads") w) = Threw e
       ∧ ∃ new,
           calls (snd (countEmails (JS.Str "crm") (JS.Str "leads") w)) = new
           ∧ last (fst <$> new) = Some Close
           ∧ length (List.filter is_close (fst <$> new)) = 1.
Proof.
  cbn zeta. exists (JS.Error "not primary"). split; [vm_compute; reflexivity |].
  destruct (connection_closed_on_every_path (JS.Str "crm") (JS.Str "leads")
              (failing_world 6 (JS.Error "not primary") mixed_blank_docs)
              eq_refl eq_refl)
    as (uri & new & Hcalls & _ & _ & Hlast & Hone).
  exists new. split; [exact Hcalls |]. split; [exact Hlast | exact Hone].
Defined.

(** ** Repeated calls *)

Lemma returned_uri_set dbName collectionName w r w' :
  countEmails dbName collectionName w = (Returned r, w') → uri_set w.
Proof.
  unfold uri_set. unfold_program. cbn.
  by destruct (uri_missing _).
Qed.

(** C9: a call that returns leaves the collections as they were, and a
    second call with the same names that returns gives the same
    [EmailCounts]; it does return if the driver does not fail. *)
Theorem repeated_calls_agree dbName collectionName w r1 w1 :
  countEmails dbName collectionName w = (Returned r1, w1) →
  contents w1 = contents w
  ∧ (∀ r2 w2,
        countEmails dbName collectionName w1 = (Returned r2, w2) → r2 = r1)
  ∧ (reliable_from (length (calls w1)) w1 →
     ∃ w2, countEmails dbName collectionName w1 = (Returned r1, w2)).
Proof.
  intros Hrun.
  pose proof (countEmails_reads_only dbName collectionName w) as Hsame.
  rewrite Hrun in Hsame. cbn in Hsame.
  destruct Hsame as (Henv & Hcontents & _ & _).
  pose proof (returned_uri_set _ _ _ _ _ Hrun) as Huri.
  apply countEmails_returned in Hrun as ->.
  split; [done |]. split.
  - intros r2 w2 ->%countEmails_returned. by rewrite Hcontents.
  - intros Hrel. rewrite <- Hcontents.
    apply countEmails_returns; [| done].
    unfold uri_set in *. by rewrite Henv.
Qed.

Lemma repeated_calls_agree_witness :
  let w := quiet_world mixed_blank_docs in
  let first := countEmails (JS.Str "crm") (JS.Str "leads") w in
  let second := countEmails (JS.Str "crm") (JS.Str "leads") (snd first) in
  first = (Returned (counts_of mixed_blank_docs), snd first)
  ∧ second = (Returned (counts_of mixed_blank_docs), snd second)
  ∧ ∀ r2 w2, second = (Returned r2, w2) → r2 = counts_of mixed_blank_docs.
Proof.
  assert (Hrun : countEmails (JS.Str "crm") (JS.Str "leads")
                   (quiet_world mixed_blank_docs)
                 = (Returned (counts_of mixed_blank_docs),
                    snd (countEmails (JS.Str "crm") (JS.Str "leads")
                           (quiet_world mixed_blank_docs))))
    by (vm_compute; reflexivity).
  split; [exact Hrun |]. split; [vm_compute; reflexivity |].
  exact (proj1 (proj2 (repeated_calls_agree _ _ _ _ _ Hrun))).
Defined.

(** * Further properties of [countEmails] *)

(** ** More on lists *)

Section Counting.
Context {A : Type}.
Implicit Types (f g : A → bool) (l k : list A).

Lemma bfilter_disjoint f g l :
  (∀ x, x ∈ l → f x = true → g x = false) →
  (length (List.filter f l) + length (List.filter g l) ≤ length l)%nat.
Proof.
  induction l as [| x l IH]; intros H; [done |].
  assert (length (List.filter f l) + length (List.filter g l)
          ≤ length l)%nat as IH'.
  { apply IH. intros y Hy. apply H, elem_of_cons. by right. }
  cbn. destruct (f x) eqn:Hf.
  - rewrite (H x ltac:(apply elem_of_cons; by left) Hf). cbn. lia.
  - destruct (g x); cbn; lia.
Qed.

Lemma bfilter_split f l :
  (length (List.filter f l)
   + length (List.filter (fun x => negb (f x)) l))%nat = length l.
Proof.
  induction l as [| x l IH]; [done |].
  cbn. destruct (f x); cbn; lia.
Qed.

Lemma bfilter_bfilter_implied f g l :
  (∀ x, x ∈ l → f x = true → g x = true) →
  List.filter f (List.filter g l) = List.filter f l.
Proof.
  induction l as [| x l IH]; intros H; [done |].
  assert (List.filter f (List.filter g l) = List.filter f l) as IH'.
  { apply IH. intros y Hy. apply H, elem_of_cons. by right. }
  pose proof (H x ltac:(apply elem_of_cons; by left)) as Hx.
  cbn. destruct (g x) eqn:Hg; cbn.
  - destruct (f x); by rewrite IH'.
  - destruct (f x) eqn:Hf; [| done]. specialize (Hx eq_refl). congruence.
Qed.

Lemma length_bfilter_Permutation f l k :
  l ≡ₚ k → length (List.filter f l) = length (List.filter f k).
Proof.
  induction 1 as [| x l k _ IH | x y l | l k m _ IH1 _ IH2]; cbn.
  - done.
  - destruct (f x); cbn; by rewrite IH.
  - destruct (f x), (f y); done.
  - by rewrite IH1.
Qed.

Lemma length_bind_le {B} (h : A → list B) l :
  (∀ x, x ∈ l → (length (h x) ≤ 1)%nat) →
  (length (l ≫= h) ≤ length l)%nat.
Proof.
  induction l as [| x l IH]; intros H; [done |].
  rewrite bind_cons, length_app. cbn [length].
  pose proof (H x ltac:(apply elem_of_cons; by left)).
  assert (length (l ≫= h) ≤ length l)%nat.
  { apply IH. intros y Hy. apply H, elem_of_cons. by right. }
  lia.
Qed.

Lemma length_remove_dups_le `{EqDecision A} l :
  (length (remove_dups l) ≤ length l)%nat.
Proof.
  induction l as [| x l IH]; [done |].
  cbn. destruct (decide_rel elem_of x l); cbn; lia.
Qed.
End Counting.

(** Keys that each occur twice or more account for two elements each. *)
Lemma two_per_key (ks keys : list value) :
  NoDup ks →
  (∀ k, k ∈ ks → (2 ≤ occurrences k keys)%nat) →
  (2 * length ks ≤ length keys)%nat.
Proof.
  intros Hks. revert keys.
  induction Hks as [| k ks Hk Hks IH]; intros keys Hocc; [cbn; lia |].
  set (rest := List.filter (fun x => negb (bool_decide (x = k))) keys).
  assert (occurrences k keys + length rest = length keys)%nat as Hsplit
    by apply bfilter_split.
  assert (2 * length ks ≤ length rest)%nat as Hrest.
  { apply IH. intros k' Hk'.
    assert (occurrences k' rest = occurrences k' keys) as ->.
    { unfold occurrences, rest. f_equal. apply bfilter_bfilter_implied.
      intros x _ ->%bool_decide_eq_true. apply negb_true_iff.
      apply bool_decide_eq_false. by intros ->. }
    apply Hocc, elem_of_cons. by right. }
  pose proof (Hocc k ltac:(apply elem_of_cons; by left)).
  cbn [length]. lia.
Qed.

Lemma total_is_length docs : countDocuments All docs = length docs.
Proof. unfold countDocuments. by rewrite bfilter_all. Qed.

Lemma passing_and_sentinel docs :
  (length (List.filter (matches not_sentinel) docs)
   + countDocuments is_sentinel docs)%nat = length docs.
Proof.
  unfold countDocuments.
  rewrite <- (bfilter_split (matches is_sentinel) docs), Nat.add_comm.
  reflexivity.
Qed.

(** What an [email] that is no array has to do with the sentinel and with
    [distinct]. *)
Lemma scalar_email d :
  email_is_array d = false →
  (mentions_sentinel d = true → counts_as_empty d = false)
  ∧ (length (email_elements d) ≤ 1)%nat
  ∧ (∀ v, d !! "email" = Some v → email_elements d = [v]).
Proof.
  unfold email_is_array, mentions_sentinel, counts_as_empty, email_elements.
  destruct (d !! "email") as [[| s | z | elements] |]; cbn; try done;
    intros _; repeat split; try done; try lia; try (by intros v [= <-]).
  by intros ->%bool_decide_eq_true.
Qed.

(** ** The five numbers *)

(** X1: [enu_count] is the number of records whose [email] is the
    sentinel string or an array that has the sentinel string among its
    elements. *)
Theorem enu_count_counts_sentinel_records dbName collectionName w r w' :
  countEmails dbName collectionName w = (Returned r, w') →
  enu_count r
  = length (List.filter mentions_sentinel (contents w dbName collectionName)).
Proof.
  intros ->%countEmails_returned. cbn. unfold countDocuments. f_equal.
  apply bfilter_ext_in. intros d _. apply matches_is_sentinel.
Qed.

Lemma enu_count_counts_sentinel_records_witness :
  let run := countEmails (JS.Str "crm") (JS.Str "leads")
               (quiet_world crowded_docs) in
  run = (Returned (counts_of crowded_docs), snd run)
  ∧ enu_count (counts_of crowded_docs) = 4.
Proof.
  ran crowded_docs Hrun. split; [exact Hrun |].
  rewrite (enu_count_counts_sentinel_records _ _ _ _ _ Hrun).
  vm_compute. reflexivity.
Defined.

(** X2: on an empty collection the call returns five zeros. *)
Theorem empty_collection_counts_nothing dbName collectionName w r w' :
  contents w dbName collectionName = [] →
  countEmails dbName collectionName w = (Returned r, w') →
  r = no_counts.
Proof. intros Hempty ->%countEmails_returned. by rewrite Hempty. Qed.

Lemma empty_collection_counts_nothing_witness :
  let run := countEmails (JS.Str "crm") (JS.Str "leads") (quiet_world []) in
  run = (Returned (counts_of []), snd run) ∧ counts_of [] = no_counts.
Proof.
  ran (@nil document) Hrun. split; [exact Hrun |].
  eapply (empty_collection_counts_nothing (JS.Str "crm") (JS.Str "leads")
            (quiet_world [])); [reflexivity | exact Hrun].
Defined.

(** X3: for the collection the call reads, [total_documents] is the
    number of its records; and when no [email] in it is an array, the
    records counted in [enu_count] and those counted in [empty_emails] are
    different records of it, so the two numbers together do not exceed the
    number of records. *)
Theorem sentinel_and_blank_within_total dbName collectionName w r w' :
  countEmails dbName collectionName w = (Returned r, w') →
  total_documents r = length (contents w dbName collectionName)
  ∧ (scalar_emails (contents w dbName collectionName) →
     (enu_count r + empty_emails r
      ≤ length (contents w dbName collectionName))%nat).
Proof.
  intros ->%countEmails_returned. cbn. rewrite total_is_length.
  split; [done |]. intros Hscalar. unfold countDocuments.
  apply bfilter_disjoint. intros d Hd.
  rewrite matches_is_sentinel, matches_empty_filter.
  apply scalar_email. by apply (proj1 (Forall_forall _ _) Hscalar).
Qed.

Lemma sentinel_and_blank_within_total_witness :
  let run := countEmails (JS.Str "crm") (JS.Str "leads")
               (quiet_world busy_docs) in
  run = (Returned (counts_of busy_docs), snd run)
  ∧ total_documents (counts_of busy_docs) = 8
  ∧ (enu_count (counts_of busy_docs) + empty_emails (counts_of busy_docs)
     ≤ 8)%nat.
Proof.
  ran busy_docs Hrun. split; [exact Hrun |].
  destruct (sentinel_and_blank_within_total _ _ _ _ _ Hrun)
    as [Htotal Hwithin].
  split; [exact Htotal |]. apply Hwithin. repeat constructor.
Defined.

(** X4: when no [email] in the collection the call reads is an array,
    every distinct value comes from a record of its own that is not
    counted in [enu_count]: [actual_amount + enu_count] does not exceed the
    number of records. *)
Theorem distinct_and_sentinel_within_total dbName collectionName w r w' :
  scalar_emails (contents w dbName collectionName) →
  countEmails dbName collectionName w = (Returned r, w') →
  (actual_amount r + enu_count r
   ≤ length (contents w dbName collectionName))%nat.
Proof.
  intros Hscalar ->%countEmails_returned. cbn.
  set (docs := contents w dbName collectionName) in *.
  rewrite <- (passing_and_sentinel docs). apply Nat.add_le_mono_r.
  unfold distinct.
  etrans; [apply length_remove_dups_le | apply length_bind_le].
  intros d [Hd _]%elem_of_bfilter.
  apply scalar_email. by apply (proj1 (Forall_forall _ _) Hscalar).
Qed.

Lemma distinct_and_sentinel_within_total_witness :
  let run := countEmails (JS.Str "crm") (JS.Str "leads")
               (quiet_world busy_docs) in
  run = (Returned (counts_of busy_docs), snd run)
  ∧ (actual_amount (counts_of busy_docs) + enu_count (counts_of busy_docs)
     ≤ 8)%nat.
Proof.
  ran busy_docs Hrun. split; [exact Hrun |].
  refine (distinct_and_sentinel_within_total _ _ _ _ _ _ Hrun).
  repeat constructor.
Defined.

(** X5: in the collection the call reads, every duplicate stands for two
    records or more, none of them counted in [enu_count]:
    [2 * duplicate_emails + enu_count] does not exceed the number of
    records. *)
Theorem duplicates_take_two_records dbName collectionName w r w' :
  countEmails dbName collectionName w = (Returned r, w') →
  (2 * duplicate_emails r + enu_count r
   ≤ length (contents w dbName collectionName))%nat.
Proof.
  intros ->%countEmails_returned.
  cbn [duplicate_emails enu_count counts_of].
  set (docs := contents w dbName collectionName).
  rewrite <- (passing_and_sentinel docs). apply Nat.add_le_mono_r.
  rewrite aggregate_duplicates, length_fmap.
  replace (length (List.filter (matches not_sentinel) docs))
    with (length (grouped_keys docs))
    by (unfold grouped_keys; apply length_fmap).
  apply two_per_key; [apply NoDup_bfilter, NoDup_remove_dups |].
  intros k [_ Hk]%elem_of_bfilter. by apply Nat.ltb_lt in Hk.
Qed.

Lemma duplicates_take_two_records_witness :
  let run := countEmails (JS.Str "crm") (JS.Str "leads")
               (quiet_world crowded_docs) in
  run = (Returned (counts_of crowded_docs), snd run)
  ∧ duplicate_emails (counts_of crowded_docs) = 2
  ∧ (2 * duplicate_emails (counts_of crowded_docs)
     + enu_count (counts_of crowded_docs)
     ≤ 13)%nat.
Proof.
  ran crowded_docs Hrun. split; [exact Hrun |].
  split; [vm_compute; reflexivity |].
  exact (duplicates_take_two_records _ _ _ _ _ Hrun).
Defined.

(** X6: when no [email] in the collection the call reads is an array, a
    duplicate is a value that [distinct] returns too, except for the group
    that [$group] keys [null] when it has only records without the field.
    So [duplicate_emails ≤ actual_amount + 1], and
    [duplicate_emails ≤ actual_amount] when every record has an [email]. *)
Theorem duplicates_are_distinct_values dbName collectionName w r w' :
  scalar_emails (contents w dbName collectionName) →
  countEmails dbName collectionName w = (Returned r, w') →
  (duplicate_emails r ≤ actual_amount r + 1)%nat
  ∧ (all_have_email (contents w dbName collectionName) →
     (duplicate_emails r ≤ actual_amount r)%nat).
Proof.
  intros Hscalar ->%countEmails_returned.
  set (docs := contents w dbName collectionName) in *.
  cbn [duplicate_emails actual_amount counts_of].
  rewrite aggregate_duplicates, length_fmap.
  set (dups := List.filter _ (remove_dups (grouped_keys docs))).
  assert (NoDup dups) as Hdups by apply NoDup_bfilter, NoDup_remove_dups.
  assert (∀ k, k ∈ dups →
               ∃ d, d ∈ docs ∧ mentions_sentinel d = false
                    ∧ k = email_or_null d
                    ∧ ∀ v, d !! "email" = Some v → email_elements d = [v])
    as Hfrom.
  { intros k [Hk _]%elem_of_bfilter.
    apply elem_of_remove_dups, list_elem_of_fmap in Hk as (d & -> & Hd).
    apply elem_of_bfilter in Hd as [Hd Hm].
    rewrite matches_not_sentinel, negb_true_iff in Hm.
    exists d. repeat split; try done.
    apply scalar_email. by apply (proj1 (Forall_forall _ _) Hscalar). }
  split.
  - rewrite Nat.add_comm.
    change (length dups
            ≤ length (Null :: distinct "email" not_sentinel docs))%nat.
    apply submseteq_length, NoDup_submseteq; [done |].
    intros k (d & Hd & Hm & -> & Hone)%Hfrom. apply elem_of_cons.
    unfold email_or_null. destruct (d !! "email") as [v |] eqn:Hv; cbn.
    + right. apply elem_of_distinct_email. exists d.
      rewrite (Hone v eq_refl). repeat split; try done.
      by apply list_elem_of_singleton.
    + by left.
  - intros Hall. apply submseteq_length, NoDup_submseteq; [done |].
    intros k (d & Hd & Hm & -> & Hone)%Hfrom.
    destruct (proj1 (Forall_forall _ _) Hall d Hd) as [v Hv].
    unfold email_or_null. rewrite Hv. cbn.
    apply elem_of_distinct_email. exists d.
    rewrite (Hone v Hv). repeat split; try done.
    by apply list_elem_of_singleton.
Qed.

Lemma duplicates_are_distinct_values_witness :
  let run := countEmails (JS.Str "crm") (JS.Str "leads")
               (quiet_world three_alike_docs) in
  run = (Returned (counts_of three_alike_docs), snd run)
  ∧ (duplicate_emails (counts_of three_alike_docs)
     ≤ actual_amount (counts_of three_alike_docs))%nat.
Proof.
  ran three_alike_docs Hrun. split; [exact Hrun |].
  refine (proj2 (duplicates_are_distinct_values _ _ _ _ _ _ Hrun) _).
  - repeat constructor.
  - repeat constructor; by eexists.
Defined.

(** ** What the numbers depend on *)

Lemma count_via_emails (g : option value → bool) docs :
  length (List.filter (fun d : document => g (d !! "email")) docs)
  = length (List.filter g (emails docs)).
Proof. unfold emails. by rewrite bfilter_fmap, length_fmap. Qed.

Lemma unlocked_via_emails k docs :
  unlocked_with_email k docs
  = length (List.filter
              (fun o => negb (eq_match (Str sentinel) o)
                        && bool_decide (default Null o = k))
              (emails docs)).
Proof.
  rewrite <- count_via_emails. unfold unlocked_with_email. f_equal.
  apply bfilter_ext_in. intros d _. by rewrite mentions_sentinel_by_email.
Qed.

Lemma elem_of_distinct_via_emails v docs :
  v ∈ distinct "email" not_sentinel docs
  ↔ ∃ o, o ∈ emails docs
         ∧ eq_match (Str sentinel) o = false ∧ v ∈ values_of o.
Proof.
  rewrite elem_of_distinct_email. unfold emails, email_elements. split.
  - intros (d & Hd & Hm & Hv). exists (d !! "email").
    rewrite <- mentions_sentinel_by_email.
    repeat split; try done. apply list_elem_of_fmap. eauto.
  - intros (o & (d & -> & Hd)%list_elem_of_fmap & Hm & Hv).
    exists d. by rewrite mentions_sentinel_by_email.
Qed.

Section ByEmail.
Variables docs docs' : list document.
Hypothesis same_emails : emails docs ≡ₚ emails docs'.

Lemma count_by_email (g : option value → bool) :
  length (List.filter (fun d : document => g (d !! "email")) docs)
  = length (List.filter (fun d : document => g (d !! "email")) docs').
Proof.
  rewrite !count_via_emails. by apply length_bfilter_Permutation.
Qed.

Lemma counts_by_email : counts_of docs = counts_of docs'.
Proof.
  unfold counts_of. f_equal.
  - apply (count_by_email (fun _ => true)).
  - apply NoDup_same_length; [apply NoDup_remove_dups .. |].
    intros v. rewrite !elem_of_distinct_via_emails.
    by setoid_rewrite same_emails.
  - apply (count_by_email (holds (Eq (Str sentinel)))).
  - rewrite !aggregate_duplicates, !length_fmap.
    apply NoDup_same_length;
      [apply NoDup_bfilter, NoDup_remove_dups .. |].
    intros k. rewrite !elem_of_duplicate_keys, !unlocked_via_emails.
    by rewrite (length_bfilter_Permutation _ _ _ same_emails).
  - apply (count_by_email
             (fun o => holds (Exists false) o
                       || (holds (Eq Null) o
                           || (holds (Eq (Str "")) o || false)))).
Qed.
End ByEmail.

(** X7: the five numbers do not depend on the order of the records. *)
Theorem counts_ignore_order dbName collectionName w r w1 w' r' w1' :
  contents w dbName collectionName ≡ₚ contents w' dbName collectionName →
  countEmails dbName collectionName w = (Returned r, w1) →
  countEmails dbName collectionName w' = (Returned r', w1') →
  r = r'.
Proof.
  intros Hperm ->%countEmails_returned ->%countEmails_returned.
  apply counts_by_email. unfold emails. by rewrite Hperm.
Qed.

Lemma counts_ignore_order_witness :
  let run := countEmails (JS.Str "crm") (JS.Str "leads")
               (quiet_world busy_docs) in
  let run' := countEmails (JS.Str "crm") (JS.Str "leads")
                (quiet_world (reverse busy_docs)) in
  run = (Returned (counts_of busy_docs), snd run)
  ∧ run' = (Returned (counts_of (reverse busy_docs)), snd run')
  ∧ counts_of busy_docs = counts_of (reverse busy_docs).
Proof.
  ran busy_docs Hrun. ran (reverse busy_docs) Hrun'.
  split; [exact Hrun |]. split; [exact Hrun' |].
  refine (counts_ignore_order _ _ _ _ _ _ _ _ _ Hrun Hrun').
  cbn [contents quiet_world]. symmetry. apply reverse_Permutation.
Defined.

(** X8: the five numbers depend on the [email] fields of the records and
    on nothing else in them. *)
Theorem counts_read_email_only
    dbName collectionName w r w1 dbName' collectionName' w' r' w1' :
  emails (contents w dbName collectionName)
  = emails (contents w' dbName' collectionName') →
  countEmails dbName collectionName w = (Returned r, w1) →
  countEmails dbName' collectionName' w' = (Returned r', w1') →
  r = r'.
Proof.
  intros Hsame ->%countEmails_returned ->%countEmails_returned.
  apply counts_by_email. by rewrite Hsame.
Qed.

Lemma counts_read_email_only_witness :
  let run := countEmails (JS.Str "crm") (JS.Str "leads")
               (quiet_world mixed_blank_docs) in
  let run' := countEmails (JS.Str "crm") (JS.Str "leads")
                (quiet_world annotated_blank_docs) in
  run = (Returned (counts_of mixed_blank_docs), snd run)
  ∧ run' = (Returned (counts_of annotated_blank_docs), snd run')
  ∧ counts_of mixed_blank_docs = counts_of annotated_blank_docs.
Proof.
  ran mixed_blank_docs Hrun. ran annotated_blank_docs Hrun'.
  split; [exact Hrun |]. split; [exact Hrun' |].
  refine (counts_read_email_only _ _ _ _ _ _ _ _ _ _ _ Hrun Hrun').
  vm_compute. reflexivity.
Defined.

(** X9: the records that [enu_count] counts, those whose [email] is the
    sentinel or an array with the sentinel in it, count in
    [total_documents] and [enu_count] and not in [actual_amount] or
    [duplicate_emails].  Taking them out of the collection leaves these two
    as they were, makes [enu_count] zero and lowers [total_documents] by
    the old [enu_count]; it leaves [empty_emails] as it was when no [email]
    is an array. *)
Theorem sentinel_records_count_apart
    dbName collectionName w r w1 dbName' collectionName' w' r' w1' :
  contents w' dbName' collectionName'
  = without_sentinel (contents w dbName collectionName) →
  countEmails dbName collectionName w = (Returned r, w1) →
  countEmails dbName' collectionName' w' = (Returned r', w1') →
  actual_amount r' = actual_amount r
  ∧ duplicate_emails r' = duplicate_emails r
  ∧ enu_count r' = 0
  ∧ total_documents r = (total_documents r' + enu_count r)%nat
  ∧ (scalar_emails (contents w dbName collectionName) →
     empty_emails r' = empty_emails r).
Proof.
  intros Hdocs ->%countEmails_returned ->%countEmails_returned.
  rewrite Hdocs. set (docs := contents w dbName collectionName).
  assert (List.filter (matches not_sentinel) (without_sentinel docs)
          = List.filter (matches not_sentinel) docs) as Hpass.
  { apply bfilter_bfilter_implied. intros d _.
    by rewrite matches_not_sentinel. }
  cbn [actual_amount duplicate_emails empty_emails enu_count
       total_documents counts_of].
  repeat split.
  - unfold distinct. by rewrite Hpass.
  - unfold aggregate, duplicateEmailPipeline. cbn [foldl run_stage].
    by rewrite Hpass.
  - unfold countDocuments. rewrite bfilter_none; [done |].
    intros d [_ Hd]%elem_of_bfilter.
    rewrite matches_is_sentinel. by apply negb_true_iff.
  - rewrite !total_is_length. unfold countDocuments, without_sentinel.
    rewrite Nat.add_comm.
    rewrite (bfilter_ext_in _ mentions_sentinel docs)
      by (intros; apply matches_is_sentinel).
    symmetry. apply bfilter_split.
  - intros Hscalar. unfold countDocuments, without_sentinel. f_equal.
    apply bfilter_bfilter_implied. intros d Hd.
    rewrite matches_empty_filter. intros Hempty.
    apply negb_true_iff, not_true_iff_false. intros Hs.
    apply (proj1 (Forall_forall _ _) Hscalar), scalar_email in Hd
      as (Hd & _ & _).
    rewrite (Hd Hs) in Hempty. discriminate Hempty.
Qed.

Lemma sentinel_records_count_apart_witness :
  let run := countEmails (JS.Str "crm") (JS.Str "leads")
               (quiet_world crowded_docs) in
  let run' := countEmails (JS.Str "crm") (JS.Str "leads")
                (quiet_world (without_sentinel crowded_docs)) in
  run = (Returned (counts_of crowded_docs), snd run)
  ∧ run' = (Returned (counts_of (without_sentinel crowded_docs)), snd run')
  ∧ actual_amount (counts_of (without_sentinel crowded_docs)) = 4
  ∧ enu_count (counts_of crowded_docs) = 4.
Proof.
  ran crowded_docs Hrun. ran (without_sentinel crowded_docs) Hrun'.
  split; [exact Hrun |]. split; [exact Hrun' |].
  destruct (sentinel_records_count_apart _ _ _ _ _ _ _ _ _ _
              (eq_refl : contents (quiet_world (without_sentinel crowded_docs))
                           (JS.Str "crm") (JS.Str "leads")
                         = without_sentinel
                             (contents (quiet_world crowded_docs)
                                (JS.Str "crm") (JS.Str "leads")))
              Hrun Hrun') as (Ha & _ & _ & _ & _).
  rewrite Ha. split; vm_compute; reflexivity.
Defined.

(** ** One more record *)

Section OneMore.
Variables (d : document) (docs : list document).

Lemma countDocuments_cons q :
  countDocuments q (d :: docs)
  = ((if matches q d then 1 else 0) + countDocuments q docs)%nat.
Proof. unfold countDocuments. cbn. by destruct (matches q d). Qed.

Lemma unlocked_with_email_cons k :
  unlocked_with_email k (d :: docs)
  = ((if negb (mentions_sentinel d) && bool_decide (email_or_null d = k)
      then 1 else 0)
     + unlocked_with_email k docs)%nat.
Proof.
  unfold unlocked_with_email. cbn.
  by destruct (negb (mentions_sentinel d)
               && bool_decide (email_or_null d = k)).
Qed.

Lemma distinct_cons_lower :
  (length (distinct "email" not_sentinel docs)
   ≤ length (distinct "email" not_sentinel (d :: docs)))%nat.
Proof.
  apply submseteq_length, NoDup_submseteq; [apply NoDup_remove_dups |].
  intros v. rewrite !elem_of_distinct_email.
  intros (d0 & Hd0 & He). exists d0. split; [| done].
  apply elem_of_cons. by right.
Qed.

Lemma distinct_cons_upper :
  (length (distinct "email" not_sentinel (d :: docs))
   ≤ length (distinct "email" not_sentinel docs)
     + length (email_elements d))%nat.
Proof.
  rewrite Nat.add_comm, <- length_app.
  apply submseteq_length, NoDup_submseteq; [apply NoDup_remove_dups |].
  intros v. rewrite elem_of_app, !elem_of_distinct_email.
  intros (d0 & [-> | Hd0]%elem_of_cons & Hm & He).
  - by left.
  - right. eauto.
Qed.

Lemma duplicates_cons_lower :
  (length (aggregate duplicateEmailPipeline docs)
   ≤ length (aggregate duplicateEmailPipeline (d :: docs)))%nat.
Proof.
  rewrite !aggregate_duplicates, !length_fmap.
  apply submseteq_length, NoDup_submseteq;
    [apply NoDup_bfilter, NoDup_remove_dups |].
  intros k. rewrite !elem_of_duplicate_keys, unlocked_with_email_cons. lia.
Qed.

Lemma duplicates_cons_upper :
  (length (aggregate duplicateEmailPipeline (d :: docs))
   ≤ length (aggregate duplicateEmailPipeline docs) + 1)%nat.
Proof.
  rewrite !aggregate_duplicates, !length_fmap, Nat.add_comm.
  set (dups := List.filter _ (remove_dups (grouped_keys docs))).
  change (1 + length dups)%nat with (length (email_or_null d :: dups)).
  apply submseteq_length, NoDup_submseteq;
    [apply NoDup_bfilter, NoDup_remove_dups |].
  intros k. unfold dups.
  rewrite elem_of_cons, !elem_of_duplicate_keys, unlocked_with_email_cons.
  intros Hn. case_bool_decide; [by left |]. right.
  rewrite andb_false_r in Hn. lia.
Qed.
End OneMore.

(** X20: one more record in the collection raises [total_documents] by
    one, each of [enu_count], [duplicate_emails] and [empty_emails] by one
    or not at all, and [actual_amount] by the number of values the record
    has as its [email] at most: one, or as many as the array has
    elements. *)
Theorem one_more_record
    dbName collectionName w r w1 dbName' collectionName' w' r' w1' d :
  contents w' dbName' collectionName'
  = d :: contents w dbName collectionName →
  countEmails dbName collectionName w = (Returned r, w1) →
  countEmails dbName' collectionName' w' = (Returned r', w1') →
  total_documents r' = (total_documents r + 1)%nat
  ∧ (actual_amount r ≤ actual_amount r'
     ≤ actual_amount r + length (email_elements d))%nat
  ∧ (enu_count r ≤ enu_count r' ≤ enu_count r + 1)%nat
  ∧ (duplicate_emails r ≤ duplicate_emails r'
     ≤ duplicate_emails r + 1)%nat
  ∧ (empty_emails r ≤ empty_emails r' ≤ empty_emails r + 1)%nat.
Proof.
  intros Hdocs ->%countEmails_returned ->%countEmails_returned.
  rewrite Hdocs. set (docs := contents w dbName collectionName).
  cbn [total_documents actual_amount enu_count duplicate_emails
       empty_emails counts_of].
  rewrite !countDocuments_cons.
  pose proof (distinct_cons_lower d docs).
  pose proof (distinct_cons_upper d docs).
  pose proof (duplicates_cons_lower d docs).
  pose proof (duplicates_cons_upper d docs).
  destruct (matches is_sentinel d), (matches empty_filter d);
    cbn [matches]; lia.
Qed.

Lemma one_more_record_witness :
  let more := with_emails ["cy@example.org"; "di@example.org";
                           "ed@example.org"] in
  let run := countEmails (JS.Str "crm") (JS.Str "leads")
               (quiet_world busy_docs) in
  let run' := countEmails (JS.Str "crm") (JS.Str "leads")
                (quiet_world (more :: busy_docs)) in
  run = (Returned (counts_of busy_docs), snd run)
  ∧ run' = (Returned (counts_of (more :: busy_docs)), snd run')
  ∧ actual_amount (counts_of busy_docs) = 3
  ∧ actual_amount (counts_of (more :: busy_docs)) = 5
  ∧ (actual_amount (counts_of (more :: busy_docs))
     ≤ actual_amount (counts_of busy_docs) + 3)%nat.
Proof.
  cbn zeta.
  ran busy_docs Hrun.
  ran (with_emails ["cy@example.org"; "di@example.org"; "ed@example.org"]
         :: busy_docs) Hrun'.
  split; [exact Hrun |]. split; [exact Hrun' |].
  split; [vm_compute; reflexivity |]. split; [vm_compute; reflexivity |].
  destruct (one_more_record (JS.Str "crm") (JS.Str "leads")
              (quiet_world busy_docs) _ _ (JS.Str "crm") (JS.Str "leads")
              (quiet_world
                 (with_emails ["cy@example.org"; "di@example.org";
                               "ed@example.org"] :: busy_docs))
              _ _
              (with_emails ["cy@example.org"; "di@example.org";
                            "ed@example.org"])
              eq_refl Hrun Hrun') as (_ & [_ Hupper] & _).
  clear Hrun Hrun'. vm_compute in Hupper. vm_compute. exact Hupper.
Defined.

(** ** Failures of the driver *)

Lemma countEmails_returns_within dbName collectionName w :
  uri_set w →
  (∀ n, (length (calls w) ≤ n < length (calls w) + 11)%nat →
        failure w n = None) →
  ∃ w', countEmails dbName collectionName w
        = (Returned (counts_of (contents w dbName collectionName)), w').
Proof.
  unfold uri_set. intros Huri Hrel.
  unfold_program. cbn. rewrite Huri.
  repeat (rewrite Hrel by (rewrite ?length_app; cbn; lia); cbn).
  eauto.
Qed.

(** X10: the call returns its five numbers exactly when the connection
    string is set and none of its eleven driver calls fails: the
    constructor, [connect], [db], [collection], the probe, the five
    queries and [close].  There is no partial result. *)
Theorem returns_iff_nothing_fails dbName collectionName w :
  (∃ r w', countEmails dbName collectionName w = (Returned r, w'))
  ↔ uri_set w
    ∧ ∀ i, (i < 11)%nat → failure w (length (calls w) + i) = None.
Proof.
  split.
  - intros (r & w' & Hrun).
    split; [by eapply returned_uri_set |].
    revert Hrun. unfold_program. cbn.
    destruct (uri_missing _); [discriminate |].
    repeat next_call; intros Hrun; try discriminate. clear Hrun.
    rewrite ?length_app in *. cbn [length] in *.
    intros i Hi.
    do 11 (destruct i as [| i];
           [match goal with
            | H : failure w ?n = None |- failure w ?m = None =>
                replace m with n by lia; exact H
            end |]).
    lia.
  - intros [Huri Hnone].
    destruct (countEmails_returns_within dbName collectionName w Huri)
      as [w' Hrun]; [| eauto].
    intros n Hn.
    replace n with (length (calls w) + (n - length (calls w)))%nat by lia.
    apply Hnone. lia.
Qed.

(** X11: when [close] succeeds but an earlier driver call of the [try]
    block failed, the call throws what that driver call threw, and it is
    the only failure: every call before it succeeded, and the call made
    right after it is [close], the last one.  Nothing else is attempted
    after a failure. *)
Theorem first_failure_is_thrown dbName collectionName w new e rest :
  uri_set w →
  calls (snd (countEmails dbName collectionName w)) = (calls w ++ new)%list →
  last new = Some (Close, None) →
  failures new = e :: rest →
  fst (countEmails dbName collectionName w) = Threw e
  ∧ rest = []
  ∧ ∃ before failed,
      new = (before ++ [(failed, Some e); (Close, None)])%list
      ∧ failures before = [].
Proof.
  unfold uri_set. intros Huri. unfold_program. cbn. rewrite Huri.
  repeat next_call; rewrite <- ?app_assoc; cbn [app];
    intros <-%app_inv_head Hlast Hfail;
    cbn in Hlast, Hfail; simplify_eq;
    (split; [done |]); (split; [done |]);
    match goal with
    | |- ∃ before failed, ?l = _ ∧ _ =>
        exists (removelast (removelast l))
    end; cbn [removelast]; eexists; split; reflexivity.
Qed.

Lemma first_failure_is_thrown_witness :
  let w := failing_world 6 (JS.Error "not primary") mixed_blank_docs in
  let run := countEmails (JS.Str "crm") (JS.Str "leads") w in
  last (calls (snd run)) = Some (Close, None)
  ∧ failures (calls (snd run)) = [JS.Error "not primary"]
  ∧ fst run = Threw (JS.Error "not primary").
Proof.
  cbn zeta. split; [vm_compute; reflexivity |].
  split; [vm_compute; reflexivity |].
  eapply proj1.
  apply (first_failure_is_thrown (JS.Str "crm") (JS.Str "leads")
           (failing_world 6 (JS.Error "not primary") mixed_blank_docs)
           (calls (snd (countEmails (JS.Str "crm") (JS.Str "leads")
                          (failing_world 6 (JS.Error "not primary")
                             mixed_blank_docs))))
           (JS.Error "not primary") []);
    vm_compute; reflexivity.
Defined.

(** X12: when [close] fails, the call throws what [close] threw, whatever
    happened before: an earlier error is replaced, and so are the five
    numbers if every query had succeeded. *)
Theorem close_failure_is_thrown dbName collectionName w e :
  uri_set w →
  last (calls (snd (countEmails dbName collectionName w)))
  = Some (Close, Some e) →
  fst (countEmails dbName collectionName w) = Threw e.
Proof.
  unfold uri_set. intros Huri. unfold_program. cbn. rewrite Huri.
  repeat next_call; rewrite last_snoc; intros Hlast; by simplify_eq.
Qed.

Lemma close_failure_is_thrown_witness :
  let w := failing_world 10 (JS.Error "socket hang up") mixed_blank_docs in
  let run := countEmails (JS.Str "crm") (JS.Str "leads") w in
  failures (calls (snd run)) = [JS.Error "socket hang up"]
  ∧ length (calls (snd run)) = 11
  ∧ fst run = Threw (JS.Error "socket hang up").
Proof.
  cbn zeta. split; [vm_compute; reflexivity |].
  split; [vm_compute; reflexivity |].
  apply (close_failure_is_thrown (JS.Str "crm") (JS.Str "leads")
           (failing_world 10 (JS.Error "socket hang up") mixed_blank_docs)).
  - reflexivity.
  - vm_compute. reflexivity.
Defined.

(** X13: when the constructor of the client throws, the call throws the
    same value and makes no other driver call: the constructor is outside
    the [try], so there is neither a [connect] nor a [close]. *)
Theorem constructor_failure_opens_nothing dbName collectionName w e :
  uri_set w →
  failure w (length (calls w)) = Some e →
  fst (countEmails dbName collectionName w) = Threw e
  ∧ ∃ uri,
      calls (snd (countEmails dbName collectionName w))
      = (calls w ++ [(NewClient uri read_only_options, Some e)])%list.
Proof.
  unfold uri_set. intros Huri Hfail. unfold_program. cbn.
  rewrite Huri, Hfail. cbn. eauto.
Qed.

Lemma constructor_failure_opens_nothing_witness :
  let w := failing_world 0 (JS.Error "Invalid scheme") mixed_blank_docs in
  let run := countEmails (JS.Str "crm") (JS.Str "leads") w in
  fst run = Threw (JS.Error "Invalid scheme") ∧ length (calls (snd run)) = 1.
Proof.
  cbn zeta.
  destruct (constructor_failure_opens_nothing (JS.Str "crm") (JS.Str "leads")
              (failing_world 0 (JS.Error "Invalid scheme") mixed_blank_docs)
              (JS.Error "Invalid scheme") eq_refl eq_refl)
    as (Hthrown & uri & Hcalls).
  split; [exact Hthrown |]. by rewrite Hcalls.
Defined.

(** X14: the call makes no driver call at all exactly when the connection
    string is unset or empty, and what it throws then is the [Error] that
    names the variable. *)
Theorem no_driver_call_iff_uri_missing dbName collectionName w :
  (calls (snd (countEmails dbName collectionName w)) = calls w
   ↔ uri_missing (env w !! "MONGODB_URI") = true)
  ∧ (uri_missing (env w !! "MONGODB_URI") = true →
     countEmails dbName collectionName w
     = (Threw (JS.Error missing_uri_message), w)).
Proof.
  unfold_program. cbn.
  destruct (uri_missing _) eqn:Huri; [done |].
  split; [| done]. split; [| done].
  repeat next_call; intros Hcalls; apply (f_equal length) in Hcalls;
    rewrite !length_app in Hcalls; cbn in Hcalls; lia.
Qed.

Lemma no_driver_call_iff_uri_missing_witness :
  let w := World {[ "MONGODB_URI" := "" ]} (fun _ _ => mixed_blank_docs)
             (fun _ => None) [] [] in
  countEmails (JS.Str "crm") (JS.Str "leads") w
  = (Threw (JS.Error missing_uri_message), w).
Proof.
  cbn zeta.
  apply (proj2 (no_driver_call_iff_uri_missing (JS.Str "crm")
                  (JS.Str "leads") _)).
  reflexivity.
Defined.

(** * Further properties of the route *)

Lemma missing_fields_is_400_aux body w :
  JS.truthy (JS.get body "database_name") = false
  ∨ JS.truthy (JS.get body "collection_name") = false →
  post_count_emails body w
  = (Returned {| status := 400; json := ErrorBody missing_fields_message |},
     w).
Proof.
  unfold post_count_emails, try_catch, mret, M_ret, ret.
  intros [H | H]; rewrite H; [done |].
  by rewrite orb_true_r.
Qed.

Lemma post_invalid body w :
  ¬ valid_request body →
  post_count_emails body w
  = (Returned {| status := 400; json := ErrorBody missing_fields_message |},
     w).
Proof.
  intros Hinvalid. apply missing_fields_is_400_aux.
  unfold valid_request in Hinvalid.
  destruct (JS.truthy (JS.get body "database_name")); [| by left].
  destruct (JS.truthy (JS.get body "collection_name")); [| by right].
  by destruct Hinvalid.
Qed.

(** X15: the route answers every request and never throws.  The answer is
    200 with the five numbers, 400 with the fixed message, or 500 with a
    text. *)
Theorem route_always_answers body w :
  ∃ resp w',
    post_count_emails body w = (Returned resp, w')
    ∧ ((status resp = 200 ∧ ∃ counts, json resp = Counts counts)
       ∨ (status resp = 400 ∧ json resp = ErrorBody missing_fields_message)
       ∨ (status resp = 500 ∧ ∃ text, json resp = ErrorBody text)).
Proof.
  destruct (decide (valid_request body)) as [Hvalid | Hinvalid].
  - rewrite (post_valid _ _ Hvalid).
    destruct (countEmails _ _ w) as [[counts | error] w'];
      eexists _, _; (split; [reflexivity |]); cbn; eauto 6.
  - rewrite (post_invalid _ _ Hinvalid).
    eexists _, _. split; [reflexivity |]. cbn. eauto.
Qed.

(** X16: the answer is 400 exactly when [database_name] or
    [collection_name] is missing or falsy.  A truthy value that is not a
    string passes the validation. *)
Theorem route_400_iff_field_missing body w resp w' :
  post_count_emails body w = (Returned resp, w') →
  status resp = 400
  ↔ (JS.truthy (JS.get body "database_name") = false
     ∨ JS.truthy (JS.get body "collection_name") = false).
Proof.
  intros Hpost. split.
  - intros Hstatus.
    destruct (decide (valid_request body)) as [Hvalid | Hinvalid].
    + rewrite (post_valid _ _ Hvalid) in Hpost.
      destruct (countEmails _ _ w) as [[counts | error] w1];
        simplify_eq; discriminate Hstatus.
    + unfold valid_request in Hinvalid.
      destruct (JS.truthy (JS.get body "database_name")); [| by left].
      destruct (JS.truthy (JS.get body "collection_name")); [| by right].
      by destruct Hinvalid.
  - intros Hfalsy. rewrite (missing_fields_is_400_aux _ _ Hfalsy) in Hpost.
    by simplify_eq.
Qed.

Lemma route_400_iff_field_missing_witness :
  let w := failing_world 4 (JS.Error "name must be a string")
             mixed_blank_docs in
  let run := post_count_emails odd_body w in
  run = (Returned {| status := 500;
                     json := ErrorBody "name must be a string" |}, snd run)
  ∧ ¬ (JS.truthy (JS.get odd_body "database_name") = false
       ∨ JS.truthy (JS.get odd_body "collection_name") = false).
Proof.
  cbn zeta.
  assert (Hpost :
      post_count_emails odd_body
        (failing_world 4 (JS.Error "name must be a string") mixed_blank_docs)
      = (Returned {| status := 500;
                     json := ErrorBody "name must be a string" |},
         snd (post_count_emails odd_body
                (failing_world 4 (JS.Error "name must be a string")
                   mixed_blank_docs))))
    by (vm_compute; reflexivity).
  split; [exact Hpost |].
  intros Hfalsy.
  apply (route_400_iff_field_missing _ _ _ _ Hpost) in Hfalsy.
  cbn in Hfalsy. lia.
Defined.

(** X17: the answer is 200 with given numbers exactly when the request is
    valid and [countEmails], called with the two fields of the body, returns
    these numbers; the route then leaves the world as [countEmails] left
    it. *)
Theorem route_200_iff_counts_returned body w counts w' :
  post_count_emails body w
  = (Returned {| status := 200; json := Counts counts |}, w')
  ↔ valid_request body
    ∧ countEmails (JS.get body "database_name")
        (JS.get body "collection_name") w
      = (Returned counts, w').
Proof.
  split.
  - intros Hpost.
    destruct (decide (valid_request body)) as [Hvalid | Hinvalid].
    + split; [done |]. rewrite (post_valid _ _ Hvalid) in Hpost.
      destruct (countEmails _ _ w) as [[counts1 | error] w1];
        by simplify_eq.
    + rewrite (post_invalid _ _ Hinvalid) in Hpost. by simplify_eq.
  - intros [Hvalid Hrun]. by rewrite (post_valid _ _ Hvalid), Hrun.
Qed.

(** X18: [console.error] prints exactly what the route catches: on a 500
    one more thrown value is on the error stream, and the text of the
    answer is read from it; on a 200 or a 400 nothing is printed. *)
Theorem route_prints_what_it_catches body w resp w' :
  post_count_emails body w = (Returned resp, w') →
  (status resp = 500 →
   ∃ error, stderr w' = (stderr w ++ [error])%list
            ∧ json resp = ErrorBody (error_text error))
  ∧ (status resp ≠ 500 → stderr w' = stderr w).
Proof.
  intros Hpost.
  destruct (decide (valid_request body)) as [Hvalid | Hinvalid].
  - rewrite (post_valid _ _ Hvalid) in Hpost.
    pose proof (countEmails_reads_only (JS.get body "database_name")
                  (JS.get body "collection_name") w) as Hsame.
    destruct (countEmails _ _ w) as [[counts | error] w1];
      cbn in Hsame; destruct Hsame as (_ & _ & _ & Herr); simplify_eq; cbn.
    + split; [discriminate | done].
    + split; [| done]. intros _. exists error. by rewrite Herr.
  - rewrite (post_invalid _ _ Hinvalid) in Hpost. simplify_eq. cbn.
    split; [discriminate | done].
Qed.

Lemma route_prints_what_it_catches_witness :
  let w := failing_world 7 (JS.NotAnError (JS.Str "cursor killed"))
             mixed_blank_docs in
  let run := post_count_emails a_body w in
  fst run = Returned {| status := 500;
                        json := ErrorBody unknown_error_message |}
  ∧ stderr (snd run) = [JS.NotAnError (JS.Str "cursor killed")].
Proof.
  cbn zeta. split; [vm_compute; reflexivity |].
  destruct (route_prints_what_it_catches a_body
              (failing_world 7 (JS.NotAnError (JS.Str "cursor killed"))
                 mixed_blank_docs)
              _ _ ltac:(vm_compute; reflexivity)) as [Hprinted _].
  destruct (Hprinted eq_refl) as (error & Herr & Hjson).
  vm_compute. reflexivity.
Defined.

(** X19: a valid request, with the connection string set and a driver that
    does not fail, is answered 200 with the five numbers of the collection
    the body names. *)
Theorem route_answers_the_counts body w :
  valid_request body →
  uri_set w →
  reliable_from (length (calls w)) w →
  ∃ w', post_count_emails body w
        = (Returned
             {| status := 200;
                json := Counts
                          (counts_of
                             (contents w (JS.get body "database_name")
                                (JS.get body "collection_name"))) |},
           w').
Proof.
  intros Hvalid Huri Hrel.
  destruct (countEmails_returns (JS.get body "database_name")
              (JS.get body "collection_name") w Huri Hrel) as [w' Hrun].
  exists w'. by rewrite (post_valid _ _ Hvalid), Hrun.
Qed.

Lemma route_answers_the_counts_witness :
  ∃ w', post_count_emails a_body (quiet_world busy_docs)
        = (Returned
             {| status := 200;
                json := Counts
                          {| total_documents := 8; actual_amount := 3;
                             enu_count := 2; duplicate_emails := 2;
                             empty_emails := 1 |} |},
           w').
Proof.
  apply (route_answers_the_counts a_body (quiet_world busy_docs)).
  - split; reflexivity.
  - reflexivity.
  - intros i _. reflexivity.
Defined.
